(** * Sales dashboard pipeline (app.py): normalizer, filter engine, aggregator

    A shallow embedding of the data-shaping pipeline of [src/app.py]: the
    column-name normalisation, the type coercions, the derived [Revenue]
    column, the completeness drop, the three filters, the final Revenue
    drop and the KPI / grouped aggregates.

    A table is its list of column labels (repeats allowed, as in
    pandas) and its rows.  Numeric columns are float64, as
    [pd.to_numeric] produces for any column holding a null or a
    non-integer (an all-integer column is read by its float64 values);
    they are modelled by the IEEE-754 binary64 instance of [SpecFloat].
    Dates are pandas timestamps: nanoseconds since the epoch, as [Z].
    A Python exception is a [Raise]. *)

From Stdlib Require Import ZArith List String Ascii Bool Lia SpecFloat.
From Stdlib Require Import Sorting.Permutation Sorting.Sorted DecimalString.
From Stdlib Require OrderedTypeEx.
Import ListNotations.

(* ------------------------------------------------------------------ *)
(** ** float64 *)

Module Float64.

Definition prec : Z := 53.
Definition emax : Z := 1024.

Definition float64 : Type := spec_float.

Definition nan : float64 := S754_nan.
Definition zero : float64 := S754_zero false.
Definition pinf : float64 := S754_infinity false.

Definition mul : float64 -> float64 -> float64 := SFmul prec emax.
Definition add : float64 -> float64 -> float64 := SFadd prec emax.
Definition div : float64 -> float64 -> float64 := SFdiv prec emax.

(** The float64 nearest to an integer. *)
Definition of_Z (z : Z) : float64 := binary_normalize prec emax z 0 false.

Definition isnan (x : float64) : bool :=
  match x with S754_nan => true | _ => false end.

Definition is_inf (x : float64) : bool :=
  match x with S754_infinity _ => true | _ => false end.

Definition is_zero (x : float64) : bool :=
  match x with S754_zero _ => true | _ => false end.

(** [x == y] on floats: false as soon as one side is NaN, and
    [-0.0 == 0.0]. *)
Definition eqb (x y : float64) : bool := SFeqb x y.
Definition ltb (x y : float64) : bool := SFltb x y.
Definition leb (x y : float64) : bool := SFleb x y.

(** The only products of two non-NaN floats that are NaN. *)
Definition inf_times_zero (x y : float64) : bool :=
  (is_inf x && is_zero y) || (is_zero x && is_inf y).

End Float64.

Import Float64.

(* ------------------------------------------------------------------ *)
(** ** Column names: [str.strip], [str.lower] and the rename map *)

Local Open Scope string_scope.
Local Open Scope list_scope.

(** Column names are UTF-8 texts.  [str.strip] removes the Unicode
    whitespace characters, listed here by their UTF-8 encodings:
    U+0009..U+000D, U+001C..U+0020, U+0085, U+00A0, U+1680,
    U+2000..U+200A, U+2028, U+2029, U+202F, U+205F and U+3000. *)
Definition bytes (l : list nat) : string :=
  string_of_list_ascii (map ascii_of_nat l).

Definition whitespace : list string :=
  map bytes
    ([ [9]; [10]; [11]; [12]; [13]; [28]; [29]; [30]; [31]; [32];
       [194; 133]; [194; 160]; [225; 154; 128] ]
     ++ map (fun k => [226; 128; k]) (seq 128 11)
     ++ [ [226; 128; 168]; [226; 128; 169]; [226; 128; 175];
          [226; 129; 159]; [227; 128; 128] ]).

(** [s] without the prefix [p], when it has it. *)
Fixpoint without_prefix (p s : string) : option string :=
  match p, s with
  | EmptyString, _ => Some s
  | String a p', String b s' =>
      if (a =? b)%char then without_prefix p' s' else None
  | String _ _, EmptyString => None
  end.

Fixpoint without_first (ps : list string) (s : string) : option string :=
  match ps with
  | [] => None
  | p :: ps' =>
      match without_prefix p s with
      | Some s' => Some s'
      | None => without_first ps' s
      end
  end.

(** Leading members of [ps] removed, at most [n] of them. *)
Fixpoint lstrip_of (ps : list string) (n : nat) (s : string) : string :=
  match n with
  | O => s
  | S n' =>
      match without_first ps s with
      | Some s' => lstrip_of ps n' s'
      | None => s
      end
  end.

Definition reverse (s : string) : string :=
  string_of_list_ascii (rev (list_ascii_of_string s)).

Definition lstrip (s : string) : string :=
  lstrip_of whitespace (String.length s) s.

Definition rstrip (s : string) : string :=
  reverse (lstrip_of (map reverse whitespace) (String.length s) (reverse s)).

Definition strip (s : string) : string := rstrip (lstrip s).

(** [str.lower], on the ASCII letters: the result is only compared
    with ASCII words, and no other character lowers to a letter of
    those words. *)
Definition lower_ascii (a : ascii) : ascii :=
  let n := nat_of_ascii a in
  if ((65 <=? n) && (n <=? 90))%nat then ascii_of_nat (n + 32) else a.

Fixpoint lower (s : string) : string :=
  match s with
  | EmptyString => EmptyString
  | String a s' => String (lower_ascii a) (lower s')
  end.

(** The loop that fills [rename_map], read as a function of the column
    name: each name is mapped on its own, unmatched names to themselves. *)
Definition rename_map (c : string) : string :=
  let l := lower c in
  if l =? "date" then "Date"
  else if l =? "units" then "Units"
  else if (l =? "unitprice") || (l =? "unit price") then "UnitPrice"
  else if l =? "product" then "Product"
  else if l =? "region" then "Region"
  else c.

(* ------------------------------------------------------------------ *)
(** ** Cells, errors, data frames *)

(** A cell of a data frame.  [CNull] is the null of an object column
    ([None], [NaN], [NaT]); a float NaN is the null of a numeric one. *)
Inductive cell : Type :=
| CNull
| CNum (x : float64)
| CStr (s : string)
| CTime (t : Z).

Definition isna (c : cell) : bool :=
  match c with
  | CNull => true
  | CNum x => isnan x
  | _ => false
  end.

Definition notna (c : cell) : bool := negb (isna c).

(** Equality of cell values as hashing sees it ([isin], [unique],
    [groupby]): floats by [==], so that [-0.0] and [0.0] are one key. *)
Definition cell_eqb (a b : cell) : bool :=
  match a, b with
  | CNull, CNull => true
  | CNum x, CNum y => Float64.eqb x y
  | CStr s, CStr t => String.eqb s t
  | CTime s, CTime t => Z.eqb s t
  | _, _ => false
  end.

Inductive error : Type := KeyError | ValueError | TypeError | AttributeError.

Inductive result (A : Type) : Type :=
| Ok (a : A)
| Raise (e : error).

Arguments Ok {A} a.
Arguments Raise {A} e.

Definition bind {A B : Type} (m : result A) (k : A -> result B) : result B :=
  match m with
  | Ok a => k a
  | Raise e => Raise e
  end.

Notation "x <- m ;; k" := (bind m (fun x => k))
  (at level 61, m at next level, right associativity).

Record DataFrame : Type := mkDataFrame {
  columns : list string;
  rows : list (list cell)
}.

(** A row read against [n] columns: missing trailing cells are null. *)
Definition fit (n : nat) (r : list cell) : list cell :=
  firstn n r ++ repeat CNull (n - List.length r).

Definition at_col (i : nat) (r : list cell) : cell := nth i r CNull.

Fixpoint positions_from (i : nat) (name : string) (cols : list string) : list nat :=
  match cols with
  | [] => []
  | c :: cols' =>
      if c =? name then i :: positions_from (S i) name cols'
      else positions_from (S i) name cols'
  end.

Definition positions (name : string) (df : DataFrame) : list nat :=
  positions_from 0 name (columns df).

(** What [df.get(name)] / [df[name]] is: nothing, a Series, or, when
    the label is repeated, a DataFrame of the columns that carry it. *)
Inductive selection : Type :=
| NoColumn
| Series (i : nat)
| Frame (i j : nat) (more : list nat).

Definition get (name : string) (df : DataFrame) : selection :=
  match positions name df with
  | [] => NoColumn
  | [i] => Series i
  | i :: j :: more => Frame i j more
  end.

Definition column (i : nat) (df : DataFrame) : list cell :=
  map (at_col i) (rows df).

Fixpoint assign (name : string) (v : cell) (cols : list string) (r : list cell)
  : list cell :=
  match cols, r with
  | c :: cols', x :: r' => (if c =? name then v else x) :: assign name v cols' r'
  | _, _ => r
  end.

(** [df[name] = vals], one row: every column labelled [name] takes the
    value; when there is none a new last column is added. *)
Definition put (name : string) (v : cell) (cols : list string) (r : list cell)
  : list cell :=
  let n := List.length cols in
  if existsb (fun c => c =? name) cols
  then assign name v cols (fit n r)
  else fit n r ++ [v].

Definition set_column (name : string) (vals : list cell) (df : DataFrame)
  : DataFrame :=
  mkDataFrame
    (if existsb (fun c => c =? name) (columns df)
     then columns df else columns df ++ [name])
    (map (fun rv => put name (snd rv) (columns df) (fst rv))
         (combine (rows df) vals)).

(** [df.dropna(subset=names)]: a label that no column carries raises
    KeyError; otherwise a row stays when every cell under the labels is
    non-null. *)
Fixpoint subset_positions (names : list string) (df : DataFrame)
  : result (list nat) :=
  match names with
  | [] => Ok []
  | name :: names' =>
      match positions name df with
      | [] => Raise KeyError
      | ps => rest <- subset_positions names' df ;; Ok (ps ++ rest)
      end
  end.

Definition complete (idx : list nat) (r : list cell) : bool :=
  forallb (fun i => notna (at_col i r)) idx.

Definition dropna (names : list string) (df : DataFrame) : result DataFrame :=
  idx <- subset_positions names df ;;
  Ok (mkDataFrame (columns df) (filter (complete idx) (rows df))).

(** [row[name]] for a row of [df]: the cell under the first column
    labelled [name]. *)
Definition loc (df : DataFrame) (r : list cell) (name : string) : cell :=
  match positions name df with
  | i :: _ => at_col i r
  | [] => CNull
  end.

(** [df[name]] where the label is known to be there. *)
Definition getitem (name : string) (df : DataFrame) : list cell :=
  map (fun r => loc df r name) (rows df).

Definition as_float (c : cell) : float64 :=
  match c with
  | CNum x => x
  | _ => nan
  end.

(** Elementwise [a * b] of two float columns. *)
Definition times (a b : list cell) : list cell :=
  map (fun xy => CNum (mul (as_float (fst xy)) (as_float (snd xy))))
      (combine a b).

(* ------------------------------------------------------------------ *)
(** ** The pandas coercions

    [pd.to_datetime(col, errors="coerce")] and
    [pd.to_numeric(col, errors="coerce")] are library functions: what a
    cell becomes may depend on the whole column (format inference, the
    column's dtype), so each takes the column and the cell.  [None] is
    [NaT]; an unparsable number is NaN. *)

Class Coercions : Type := {
  to_datetime : list cell -> cell -> option Z;
  to_numeric : list cell -> cell -> float64
}.

Section Normalizer.

Context {pd : Coercions}.

(** Line 88: [df.columns = df.columns.astype(str).str.strip()]. *)
Definition strip_columns (df : DataFrame) : DataFrame :=
  mkDataFrame (map strip (columns df)) (rows df).

(** Lines 91-104: [df = df.rename(columns=rename_map)]. *)
Definition rename (df : DataFrame) : DataFrame :=
  mkDataFrame (map rename_map (columns df)) (rows df).

Definition timestamp (o : option Z) : cell :=
  match o with
  | Some t => CTime t
  | None => CNull
  end.

(** Line 110: [pd.to_datetime(df.get("Date"), errors="coerce")].
    [to_datetime(None)] is [None], broadcast by the assignment; a
    DataFrame without year/month/day columns raises ValueError. *)
Definition coerce_date (df : DataFrame) : result (list cell) :=
  match get "Date" df with
  | NoColumn => Ok (map (fun _ => CNull) (rows df))
  | Series i =>
      let col := column i df in
      Ok (map (fun c => timestamp (to_datetime col c)) col)
  | Frame _ _ _ => Raise ValueError
  end.

(** Lines 111-112: [pd.to_numeric(df.get(name), errors="coerce")].
    [to_numeric(None)] is NaN, broadcast by the assignment; a
    DataFrame argument raises TypeError. *)
Definition coerce_number (name : string) (df : DataFrame)
  : result (list cell) :=
  match get name df with
  | NoColumn => Ok (map (fun _ => CNum nan) (rows df))
  | Series i =>
      let col := column i df in
      Ok (map (fun c => CNum (to_numeric col c)) col)
  | Frame _ _ _ => Raise TypeError
  end.

(** Lines 88-115: everything before the completeness drop. *)
Definition with_revenue (raw : DataFrame) : result DataFrame :=
  let df := rename (strip_columns raw) in
  dates <- coerce_date df ;;
  let df := set_column "Date" dates df in
  units <- coerce_number "Units" df ;;
  let df := set_column "Units" units df in
  prices <- coerce_number "UnitPrice" df ;;
  let df := set_column "UnitPrice" prices df in
  Ok (set_column "Revenue"
        (times (getitem "Units" df) (getitem "UnitPrice" df)) df).

Definition required : list string :=
  ["Date"; "Product"; "Region"; "Units"; "UnitPrice"].

(** Lines 88-118: the Normalizer. *)
Definition normalize (raw : DataFrame) : result DataFrame :=
  df <- with_revenue raw ;;
  dropna required df.

End Normalizer.

(** The coercions on cells that are already of the target type: a
    timestamp stays, a float stays, everything else is null.  Used to
    run the pipeline on tables of typed cells. *)
#[export] Instance typed_cells : Coercions := {
  to_datetime := fun _ c => match c with CTime t => Some t | _ => None end;
  to_numeric := fun _ c => as_float c
}.

(* ------------------------------------------------------------------ *)
(** ** Sorting *)

Section StableSort.

Variable A : Type.
Variable lt : A -> A -> bool.

(** [x] goes in front of the first element that is not below it, so
    an element inserted later stays in front of its equals. *)
Fixpoint insert (x : A) (l : list A) : list A :=
  match l with
  | [] => [x]
  | y :: l' => if lt y x then y :: insert x l' else x :: l
  end.

(** A stable ascending sort. *)
Definition sort (l : list A) : list A := fold_right insert [] l.

(** The descending order of [sort_values]: reverse, sort, reverse. *)
Definition descending (l : list A) : list A := rev (sort (rev l)).

(** Two elements that the order does not tell apart. *)
Definition equiv (a b : A) : bool := negb (lt a b) && negb (lt b a).

End StableSort.

Arguments insert {A} lt x l.
Arguments sort {A} lt l.
Arguments descending {A} lt l.
Arguments equiv {A} lt a b.

(** The order of cells of one kind; cells of different kinds do not
    compare (TypeError in Python). *)
Definition same_kind (a b : cell) : bool :=
  match a, b with
  | CNull, CNull | CNum _, CNum _ | CStr _, CStr _ | CTime _, CTime _ => true
  | _, _ => false
  end.

Definition cell_ltb (a b : cell) : bool :=
  match a, b with
  | CNum x, CNum y => Float64.ltb x y
  | CStr s, CStr t => String.ltb s t
  | CTime s, CTime t => Z.ltb s t
  | _, _ => false
  end.

(** [Series.unique()]: the distinct values, in order of appearance. *)
Fixpoint unique (l : list cell) : list cell :=
  match l with
  | [] => []
  | c :: l' => c :: filter (fun d => negb (cell_eqb d c)) (unique l')
  end.

(** [sorted(values)]: a comparison sort meets at least one pair of
    unlike kinds when there is one, and raises TypeError there. *)
Definition sorted (l : list cell) : result (list cell) :=
  match l with
  | [] => Ok []
  | c :: l' =>
      if forallb (same_kind c) l' then Ok (sort cell_ltb l)
      else Raise TypeError
  end.

(* ------------------------------------------------------------------ *)
(** ** Filters (lines 128-178) *)

(** The state of the three widgets: the two multiselects and the tuple
    of dates (days since the epoch) that [st.date_input] returns, which
    has 0, 1 or 2 entries while the user picks a range. *)
Record FilterSelection : Type := mkSelection {
  selected_region : list cell;
  selected_product : list cell;
  date_input : list Z
}.

Definition second : Z := 1000000000.
Definition day : Z := 86400 * second.

(** [pd.to_datetime(d)] for a [datetime.date]: midnight of that day. *)
Definition midnight (d : Z) : Z := d * day.

(** Lines 128-129: [sorted(df[name].dropna().unique())].  A DataFrame
    (repeated label) has no [unique]. *)
Definition options (name : string) (df : DataFrame) : result (list cell) :=
  match get name df with
  | NoColumn => Raise KeyError
  | Series i => sorted (unique (filter notna (column i df)))
  | Frame _ _ _ => Raise AttributeError
  end.

Definition date_of (c : cell) : option Z :=
  match c with
  | CTime t => Some t
  | _ => None
  end.

(** [df["Date"].min()] and [.max()], nulls skipped; [None] is NaT. *)
Definition min_date (df : DataFrame) : option Z :=
  fold_right (fun c acc =>
                match date_of c, acc with
                | Some t, Some m => Some (Z.min t m)
                | Some t, None => Some t
                | None, _ => acc
                end) None (getitem "Date" df).

Definition max_date (df : DataFrame) : option Z :=
  fold_right (fun c acc =>
                match date_of c, acc with
                | Some t, Some m => Some (Z.max t m)
                | Some t, None => Some t
                | None, _ => acc
                end) None (getitem "Date" df).

(** Lines 146-157: without a valid date there is no widget and
    [date_range] is [None]; otherwise it is the widget's value. *)
Definition date_range (df : DataFrame) (sel : FilterSelection)
  : option (list Z) :=
  match min_date df, max_date df with
  | Some _, Some _ => Some (date_input sel)
  | _, _ => None
  end.

Definition isin (c : cell) (l : list cell) : bool := existsb (cell_eqb c) l.

Definition select (keep : list cell -> bool) (df : DataFrame) : DataFrame :=
  mkDataFrame (columns df) (filter keep (rows df)).

(** [df.iloc[0:0]]. *)
Definition iloc_empty (df : DataFrame) : DataFrame :=
  mkDataFrame (columns df) [].

(** Lines 162-170, for either multiselect. *)
Definition filter_isin (name : string) (selected : list cell) (df : DataFrame)
  : DataFrame :=
  match selected with
  | [] => iloc_empty df
  | _ => select (fun r => isin (loc df r name) selected) df
  end.

Definition in_range (start_date end_date : Z) (c : cell) : bool :=
  match date_of c with
  | Some t => (start_date <=? t)%Z && (t <=? end_date)%Z
  | None => false
  end.

(** Lines 172-175. *)
Definition filter_date (range : option (list Z)) (df : DataFrame) : DataFrame :=
  match range with
  | Some [d1; d2] =>
      let start_date := midnight d1 in
      let end_date := (midnight d2 + day - second)%Z in
      select (fun r => in_range start_date end_date (loc df r "Date")) df
  | _ => df
  end.

(** Lines 160-175: [df_filtered]. *)
Definition apply_filters (df : DataFrame) (sel : FilterSelection)
  (range : option (list Z)) : DataFrame :=
  filter_date range
    (filter_isin "Product" (selected_product sel)
       (filter_isin "Region" (selected_region sel) df)).

(** Lines 160-178: [df_clean]. *)
Definition filter_engine (df : DataFrame) (sel : FilterSelection)
  (range : option (list Z)) : result DataFrame :=
  dropna ["Revenue"] (apply_filters df sel range).

(* ------------------------------------------------------------------ *)
(** ** Aggregates (lines 186-198, 229-233, 255-259) *)

(** The non-null values of a float column ([skipna=True]). *)
Definition values (l : list cell) : list float64 :=
  map as_float (filter notna l).

(** [Series.sum()]: 0.0 on no value.  The values are added from the
    left; the library's own summation order is not modelled. *)
Definition sum (l : list cell) : float64 := fold_left add (values l) zero.

(** [Series.mean()]: NaN on no value, no division takes place. *)
Definition mean (l : list cell) : float64 :=
  match values l with
  | [] => nan
  | vs => div (fold_left add vs zero) (of_Z (Z.of_nat (List.length vs)))
  end.

(** [df.groupby(key)[val].sum()]: one entry per distinct non-null key,
    keys ascending. *)
Definition group (key : string) (k : cell) (df : DataFrame) : list (list cell) :=
  filter (fun r => cell_eqb (loc df r key) k) (rows df).

Definition groupby_sum (key val : string) (df : DataFrame)
  : list (cell * float64) :=
  map (fun k => (k, sum (map (fun r => loc df r val) (group key k df))))
      (sort cell_ltb (unique (filter notna (getitem key df)))).

Definition value_ltb (a b : cell * float64) : bool :=
  Float64.ltb (snd a) (snd b).

(** [sort_values] as pandas' [nargsort] arranges it: the NaN entries
    are set aside and come last; the others are sorted ascending, and
    for a descending order they are reversed before and after that
    sort.  The sort itself is taken to be stable. *)
Definition sort_values (ascending : bool) (s : list (cell * float64))
  : list (cell * float64) :=
  let non_nans := filter (fun kv => negb (isnan (snd kv))) s in
  let nans := filter (fun kv => isnan (snd kv)) s in
  (if ascending then sort value_ltb non_nans
   else descending value_ltb non_nans) ++ nans.

(** The placeholder of line 197 (an em dash). *)
Definition no_product : cell := CStr "—".

Record AggregateSnapshot : Type := mkSnapshot {
  total_revenue : float64;
  total_units : float64;
  avg_unit_price : float64;
  top_product_series : list (cell * float64);
  top_product : cell;
  top_product_revenue : float64;
  rev_by_product : option (list (cell * float64));
  rev_by_region : list (cell * float64)
}.

Definition is_empty (df : DataFrame) : bool :=
  match rows df with
  | [] => true
  | _ => false
  end.

(** Lines 186-198 and the grouped series of the charts.  With the label
    Revenue repeated, [df_clean["Revenue"]] is a DataFrame and
    [sort_values] without [by] raises TypeError. *)
Definition aggregate (df_clean : DataFrame) : result AggregateSnapshot :=
  match get "Revenue" df_clean with
  | NoColumn => Raise KeyError
  | Frame _ _ _ => Raise TypeError
  | Series _ =>
      let tps := sort_values false (groupby_sum "Product" "Revenue" df_clean) in
      Ok (mkSnapshot
            (sum (getitem "Revenue" df_clean))
            (sum (getitem "Units" df_clean))
            (mean (getitem "UnitPrice" df_clean))
            tps
            (match tps with kv :: _ => fst kv | [] => no_product end)
            (match tps with kv :: _ => snd kv | [] => zero end)
            (if is_empty df_clean then None
             else Some (sort_values true
                          (groupby_sum "Product" "Revenue" df_clean)))
            (sort_values false (groupby_sum "Region" "Revenue" df_clean)))
  end.

(* ------------------------------------------------------------------ *)
(** ** KPI tiles (lines 205-215): the format [,.0f] *)

(** The integer nearest to [m * 2^e], ties to even. *)
Definition round_half_even (m : positive) (e : Z) : Z :=
  if (0 <=? e)%Z then Zpos m * 2 ^ e
  else
    let d := (2 ^ (- e))%Z in
    let q := (Zpos m / d)%Z in
    match (2 * (Zpos m mod d) ?= d)%Z with
    | Lt => q
    | Gt => (q + 1)%Z
    | Eq => if Z.even q then q else (q + 1)%Z
    end.

(** Thousands separators, over the digits least significant first. *)
Fixpoint commas (k : nat) (digits : list ascii) : list ascii :=
  match digits with
  | [] => []
  | d :: ds =>
      if (k =? 3)%nat then ","%char :: d :: commas 1 ds
      else d :: commas (S k) ds
  end.

Definition digits_of (n : Z) : list ascii :=
  list_ascii_of_string
    (DecimalString.NilZero.string_of_uint (N.to_uint (Z.to_N n))).

Definition grouped (n : Z) : string :=
  string_of_list_ascii (rev (commas 0 (rev (digits_of n)))).

(** [f"{x:,.0f}"]. *)
Definition format_0f (x : float64) : string :=
  match x with
  | S754_nan => "nan"
  | S754_infinity s => if s then "-inf" else "inf"
  | S754_zero s => if s then "-0" else "0"
  | S754_finite s m e =>
      (if s then "-" else "") ++ grouped (round_half_even m e)
  end%string.

Definition money (x : float64) : string := ("$" ++ format_0f x)%string.

Record Tiles : Type := mkTiles {
  tile_total_revenue : string;
  tile_total_units : string;
  tile_avg_unit_price : string;
  tile_top_product : cell * string
}.

Definition render_kpis (s : AggregateSnapshot) : Tiles :=
  mkTiles (money (total_revenue s))
          (format_0f (total_units s))
          (money (avg_unit_price s))
          (top_product s, money (top_product_revenue s)).

(* ------------------------------------------------------------------ *)
(** ** One run of the script *)

Record Dashboard : Type := mkDashboard {
  regions : list cell;
  products : list cell;
  df_clean : DataFrame;
  snapshot : AggregateSnapshot;
  tiles : Tiles
}.

Section Run.

Context {pd : Coercions}.

Definition run (raw : DataFrame) (sel : FilterSelection) : result Dashboard :=
  df <- normalize raw ;;
  regs <- options "Region" df ;;
  prods <- options "Product" df ;;
  clean <- filter_engine df sel (date_range df sel) ;;
  snap <- aggregate clean ;;
  Ok (mkDashboard regs prods clean snap (render_kpis snap)).

End Run.

(* ------------------------------------------------------------------ *)
(** ** The CSV export (line 328): [df_clean.to_csv(index=False)] *)

(** How pandas prints a number and a timestamp (the latter depends on
    the column: dates only when every time of day is midnight). *)
Class Printer : Type := {
  print_float : float64 -> string;
  print_time : list cell -> Z -> string
}.

Definition dquote : ascii := ascii_of_nat 34.
Definition comma : ascii := ascii_of_nat 44.
Definition newline : ascii := ascii_of_nat 10.
Definition carriage_return : ascii := ascii_of_nat 13.

(** The characters that make the writer quote a field. *)
Definition special (c : ascii) : bool :=
  (c =? comma)%char || (c =? dquote)%char
  || (c =? newline)%char || (c =? carriage_return)%char.

Fixpoint needs_quotes (s : string) : bool :=
  match s with
  | EmptyString => false
  | String c s' => special c || needs_quotes s'
  end.

Fixpoint doubled (s : string) : string :=
  match s with
  | EmptyString => EmptyString
  | String c s' =>
      if (c =? dquote)%char then String dquote (String dquote (doubled s'))
      else String c (doubled s')
  end.

(** Minimal quoting: a field is quoted when it holds a special
    character, and its quotes are doubled. *)
Definition quote (s : string) : string :=
  if needs_quotes s
  then String dquote (doubled s ++ String dquote EmptyString)%string
  else s.

Fixpoint join (fields : list string) : string :=
  match fields with
  | [] => EmptyString
  | [f] => f
  | f :: fs => (f ++ String comma (join fs))%string
  end.

(** One record.  A record of one empty field is written as a pair of
    quotes, so that the line is not blank. *)
Definition line (fields : list string) : string :=
  ((match fields with
    | [EmptyString] => String dquote (String dquote EmptyString)
    | _ => join (map quote fields)
    end) ++ String newline EmptyString)%string.

Fixpoint lines (records : list (list string)) : string :=
  match records with
  | [] => EmptyString
  | r :: rs => (line r ++ lines rs)%string
  end.

Section CsvExport.

Context {pr : Printer}.

(** The text of a cell: a null is the empty text ([na_rep]). *)
Definition cell_text (col : list cell) (c : cell) : string :=
  match c with
  | CNull => EmptyString
  | CNum x => if isnan x then EmptyString else print_float x
  | CStr s => s
  | CTime t => print_time col t
  end.

(** The texts of a row, one per column. *)
Definition record (df : DataFrame) (r : list cell) : list string :=
  map (fun j => cell_text (column j df) (at_col j r))
      (seq 0 (List.length (columns df))).

(** The header and one record per row. *)
Definition to_csv (df : DataFrame) : string :=
  lines (columns df :: map (record df) (rows df)).

End CsvExport.

(** ** Reading the export back

    The repository has no reader.  This one reads the format the
    export writes: records end at a newline, fields at a comma, a
    quoted field runs to its closing quote and a doubled quote in it
    is a quote. *)

Definition push (c : ascii) (recs : list (list string)) : list (list string) :=
  match recs with
  | (f :: fs) :: rs => (String c f :: fs) :: rs
  | [] :: rs => [String c EmptyString] :: rs
  | [] => [[String c EmptyString]]
  end.

Definition next_field (recs : list (list string)) : list (list string) :=
  match recs with
  | r :: rs => (EmptyString :: r) :: rs
  | [] => [[EmptyString; EmptyString]]
  end.

Definition next_record (recs : list (list string)) : list (list string) :=
  [EmptyString] :: recs.

Fixpoint scan (quoted : bool) (s : string) : option (list (list string)) :=
  match s with
  | EmptyString => if quoted then None else Some []
  | String c s' =>
      if quoted then
        if (c =? dquote)%char then
          match s' with
          | String c' s'' =>
              if (c' =? dquote)%char
              then option_map (push dquote) (scan true s'')
              else scan false s'
          | EmptyString => scan false s'
          end
        else option_map (push c) (scan true s')
      else if (c =? dquote)%char then scan true s'
      else if (c =? comma)%char then option_map next_field (scan false s')
      else if (c =? newline)%char then option_map next_record (scan false s')
      else option_map (push c) (scan false s')
  end.

Definition read_csv (text : string) : option (list (list string)) :=
  scan false text.

(** [f] put in front of the first field of the first record. *)
Fixpoint prepend (f : string) (recs : list (list string)) : list (list string) :=
  match f with
  | EmptyString => recs
  | String c f' => push c (prepend f' recs)
  end.

(* ------------------------------------------------------------------ *)
(** ** The loader and the top of the script (lines 63-85) *)

(** What [pd.read_excel] does: it returns a table, or raises
    FileNotFoundError, or raises another exception whose text is
    [str(e)]. *)
Inductive read_excel : Type :=
| Loaded (df : DataFrame)
| FileNotFound
| Failed (text : string).

(** Lines 64-72: the pair [(df, error)]. *)
Definition load_data (file : read_excel) : option DataFrame * option string :=
  match file with
  | Loaded df => (Some df, None)
  | FileNotFound =>
      (None,
       Some "Error: data.xlsx not found. Please ensure the file exists in the project folder.")
  | Failed text => (None, Some ("Error loading file: " ++ text)%string)
  end.

(** [if error:] for [None] or a string. *)
Definition truthy (error : option string) : bool :=
  match error with
  | Some (String _ _) => true
  | _ => false
  end.

Inductive page : Type :=
| Stopped (message : string)
| Rendered (d : Dashboard).

Section Script.

Context {pd : Coercions}.

(** Lines 82-85 and what follows: on an error the message is shown and
    the script stops; otherwise the table is processed.  [df.columns]
    on [None] would raise AttributeError. *)
Definition script (file : read_excel) (sel : FilterSelection) : result page :=
  let (df, error) := load_data file in
  if truthy error
  then Ok (Stopped (match error with Some m => m | None => EmptyString end))
  else match df with
       | Some table => d <- run table sel ;; Ok (Rendered d)
       | None => Raise AttributeError
       end.

End Script.

(* ------------------------------------------------------------------ *)
(** ** The widgets' defaults (lines 131-157) *)

(** [Timestamp.date()], as days since the epoch. *)
Definition date_part (t : Z) : Z := (t / day)%Z.

(** What the widgets hold before the user touches them:
    [default=regions], [default=products] and
    [value=[min_date.date(), max_date.date()]]. *)
Definition default_selection (df : DataFrame) : result FilterSelection :=
  regs <- options "Region" df ;;
  prods <- options "Product" df ;;
  Ok (mkSelection regs prods
        (match min_date df, max_date df with
         | Some a, Some b => [date_part a; date_part b]
         | _, _ => []
         end)).

(* ------------------------------------------------------------------ *)
(** ** The daily trend (lines 283-312) *)

Section DailyTrend.

Context {pd : Coercions}.

(** The series of the line chart, [None] where the script shows a
    message instead: the Date column is coerced once more (line 287)
    and Revenue is summed per distinct Date, dates ascending.  The
    lines come after the tiles: on a table without a Revenue column, or
    with two, the script has stopped there ([aggregate]) with the
    exception given here. *)
Definition daily_rev (clean : DataFrame)
  : result (option (list (cell * float64))) :=
  match get "Revenue" clean with
  | NoColumn => Raise KeyError
  | Frame _ _ _ => Raise TypeError
  | Series _ =>
      if is_empty clean then Ok None
      else
        match get "Date" clean with
        | NoColumn => Ok None
        | Frame _ _ _ => Raise ValueError
        | Series i =>
            let col := column i clean in
            let df :=
              set_column "Date"
                         (map (fun c => timestamp (to_datetime col c)) col)
                         clean in
            match groupby_sum "Date" "Revenue" df with
            | [] => Ok None
            | s => Ok (Some s)
            end
        end
  end.

End DailyTrend.

(* ------------------------------------------------------------------ *)
(** ** Notions used in the statements and their proofs *)

(** The labels after lines 88-104. *)
Definition labels (raw : DataFrame) : DataFrame := rename (strip_columns raw).

Definition canonical : list string :=
  ["Date"; "Product"; "Region"; "Units"; "UnitPrice"; "Revenue"].

(** No retained row multiplies an infinity by a zero. *)
Definition no_inf_times_zero (df : DataFrame) : Prop :=
  forall r, In r (rows df) ->
    inf_times_zero (as_float (loc df r "Units"))
                   (as_float (loc df r "UnitPrice")) = false.

(** The entries of a grouped series whose sum is not NaN. *)
Definition summed (kv : cell * float64) : Prop := isnan (snd kv) = false.

(** A rank that orders the non-NaN floats as [<] does. *)
Definition rank (x : float64) : Z * Z * Z :=
  match x with
  | S754_nan => (0, 0, 0)%Z
  | S754_zero _ => (0, 0, 0)%Z
  | S754_infinity true => (-2, 0, 0)%Z
  | S754_infinity false => (2, 0, 0)%Z
  | S754_finite true m e => (-1, - e, Zneg m)%Z
  | S754_finite false m e => (1, e, Zpos m)%Z
  end.

Definition lex (a b : Z * Z * Z) : comparison :=
  match (fst (fst a) ?= fst (fst b))%Z with
  | Eq => match (snd (fst a) ?= snd (fst b))%Z with
          | Eq => (snd a ?= snd b)%Z
          | c => c
          end
  | c => c
  end.

(* ------------------------------------------------------------------ *)
(** ** Sample tables *)

Module Samples.

Definition num (z : Z) : cell := CNum (of_Z z).

(** Four sales under untidy labels and with a Revenue column of its
    own; the third has no Units and the fourth no Date. *)
Definition sales : DataFrame :=
  mkDataFrame [" date "; "Product"; "REGION"; "units"; "Unit Price"; "Revenue"]
    [ [CTime (midnight 19000); CStr "A"; CStr "East"; num 3; num 100; num 7];
      [CTime (midnight 19001); CStr "B"; CStr "West"; num 5; num 50; CNull];
      [CTime (midnight 19002); CStr "A"; CStr "East"; CNull; num 50; num 1];
      [CNull; CStr "A"; CStr "East"; num 1; num 50; num 50] ].

End Samples.

Module InfTimesZero.

(** One sale of infinitely many units at price 0. *)
Definition raw : DataFrame :=
  mkDataFrame ["Date"; "Product"; "Region"; "Units"; "UnitPrice"]
    [ [CTime 0; CStr "A"; CStr "East"; CNum pinf; CNum zero] ].

Definition kept : DataFrame :=
  mkDataFrame ["Date"; "Product"; "Region"; "Units"; "UnitPrice"; "Revenue"]
    [ [CTime 0; CStr "A"; CStr "East"; CNum pinf; CNum zero; CNum nan] ].

Definition everything : FilterSelection :=
  mkSelection [CStr "East"] [CStr "A"] [0%Z; 0%Z].

Definition one_sale : DataFrame :=
  mkDataFrame ["Date"; "Product"; "Region"; "Units"; "UnitPrice"]
    [ [CTime 0; CStr "A"; CStr "East"; CNum (of_Z 2); CNum (of_Z 5)] ].

End InfTimesZero.

Module EndOfDay.

(** The end date, and three timestamps around its last second. *)
Definition d2 : Z := 19000.

Definition at_235959 : Z := midnight d2 + day - second.
Definition at_235959_5 : Z := midnight d2 + day - 500000000.
Definition next_000001 : Z := midnight (d2 + 1) + second.

Definition stamped (t : Z) : list cell :=
  [CTime t; CStr "A"; CStr "East"; CNum (of_Z 1); CNum (of_Z 1); CNum (of_Z 1)].

Definition table : DataFrame :=
  mkDataFrame ["Date"; "Product"; "Region"; "Units"; "UnitPrice"; "Revenue"]
    [stamped at_235959; stamped at_235959_5; stamped next_000001].

End EndOfDay.

Module NoRegion.

(** Two complete sales in a table without a Region column. *)
Definition raw : DataFrame :=
  mkDataFrame ["Date"; "Product"; "Units"; "UnitPrice"]
    [ [CTime 0; CStr "A"; CNum (of_Z 3); CNum (of_Z 100)];
      [CTime day; CStr "B"; CNum (of_Z 5); CNum (of_Z 50)] ].

End NoRegion.

Module Grouped.

Definition sale (product region : string) (revenue : Z) : list cell :=
  [CTime 0; CStr product; CStr region; CNum (of_Z 1); CNum (of_Z revenue)].

Definition header : list string :=
  ["Date"; "Product"; "Region"; "Units"; "UnitPrice"].

(** Revenue contributions (A,100), (B,250), (A,50). *)
Definition by_product : DataFrame :=
  mkDataFrame header
    [sale "A" "East" 100; sale "B" "East" 250; sale "A" "East" 50].

(** Revenue contributions (East,300), (West,100), (East,50). *)
Definition by_region : DataFrame :=
  mkDataFrame header
    [sale "A" "East" 300; sale "A" "West" 100; sale "A" "East" 50].

Definition everything : FilterSelection :=
  mkSelection [CStr "East"; CStr "West"] [CStr "A"; CStr "B"] [0%Z; 0%Z].

Definition outcome (raw : DataFrame) : option Dashboard :=
  match @run typed_cells raw everything with
  | Ok d => Some d
  | Raise _ => None
  end.

End Grouped.

Module NoDate.

(** Two sales in a table without a Date column. *)
Definition raw : DataFrame :=
  mkDataFrame ["Product"; "region "; "Units"; "Unit Price"]
    [ [CStr "A"; CStr "East"; CNum (of_Z 3); CNum (of_Z 100)];
      [CStr "B"; CStr "West"; CNum (of_Z 5); CNum (of_Z 50)] ].

Definition everything : FilterSelection :=
  mkSelection [CStr "East"; CStr "West"] [CStr "A"; CStr "B"] [].

(** No Date and no UnitPrice, and the label Units twice. *)
Definition units_twice : DataFrame :=
  mkDataFrame ["Product"; "Region"; "Units"; "UNITS"]
    [ [CStr "A"; CStr "East"; CNum (of_Z 3); CNum (of_Z 4)] ].

End NoDate.

Module Blank.

Definition header : list string :=
  ["Date"; "Product"; "Region"; "Units"; "UnitPrice"; "Note"].

(** One sale with a pass-through column Note. *)
Definition raw (note : cell) : DataFrame :=
  mkDataFrame header
    [ [CTime 0; CStr "A"; CStr "East"; CNum (of_Z 2); CNum (of_Z 5); note] ].

Definition clean (note : cell) : DataFrame :=
  mkDataFrame (header ++ ["Revenue"])
    [ [CTime 0; CStr "A"; CStr "East"; CNum (of_Z 2); CNum (of_Z 5); note;
       CNum (of_Z 10)] ].

Definition everything : FilterSelection :=
  mkSelection [CStr "East"] [CStr "A"] [0%Z; 0%Z].

Definition exported (note : cell) : result DataFrame :=
  df <- @normalize typed_cells (raw note) ;;
  filter_engine df everything (date_range df everything).

End Blank.

(** A printer to run examples with: numbers in the format of the KPI
    tiles, timestamps as their count of nanoseconds. *)
#[export] Instance rough_printer : Printer := {
  print_float := format_0f;
  print_time := fun _ t =>
    ((if (t <? 0)%Z then "-" else "")
     ++ string_of_list_ascii (digits_of (Z.abs t)))%string
}.

(** The sample sales at the stages of the pipeline. *)
Definition sales_pre : DataFrame :=
  match with_revenue Samples.sales with
  | Ok df => df
  | Raise _ => mkDataFrame [] []
  end.

Definition sales_clean : DataFrame :=
  match @normalize typed_cells Samples.sales with
  | Ok df => df
  | Raise _ => mkDataFrame [] []
  end.

Definition one_sale_clean : DataFrame :=
  match @normalize typed_cells InfTimesZero.one_sale with
  | Ok df => df
  | Raise _ => mkDataFrame [] []
  end.

Definition sales_snapshot : AggregateSnapshot :=
  match aggregate sales_clean with
  | Ok s => s
  | Raise _ => mkSnapshot zero zero zero [] CNull zero None []
  end.

Definition sales_export : DataFrame :=
  match filter_engine sales_clean Grouped.everything None with
  | Ok df => df
  | Raise _ => mkDataFrame [] []
  end.

(* ------------------------------------------------------------------ *)
(** ** Notions of the further properties *)

Definition canonical_words : list string :=
  ["date"; "units"; "unitprice"; "unit price"; "product"; "region"].

(** Runs of members of [ps]. *)
Inductive spaces (ps : list string) : string -> Prop :=
| spaces_nil : spaces ps EmptyString
| spaces_cons (p w : string) :
    In p ps -> spaces ps w -> spaces ps (p ++ w)%string.

(** The labels after [df[name] = ...]. *)
Definition add_label (name : string) (cols : list string) : list string :=
  if existsb (fun c => c =? name) cols then cols else cols ++ [name].

(** A label that the Normalizer does not assign. *)
Definition untouched (name : string) : Prop :=
  name <> "Date" /\ name <> "Units" /\ name <> "UnitPrice" /\ name <> "Revenue".

(** What the three filters ask of a row, all at once. *)
Definition passes (df : DataFrame) (sel : FilterSelection)
  (range : option (list Z)) (r : list cell) : bool :=
  isin (loc df r "Region") (selected_region sel)
  && isin (loc df r "Product") (selected_product sel)
  && match range with
     | Some [d1; d2] =>
         in_range (midnight d1) (midnight d2 + day - second)%Z (loc df r "Date")
     | _ => true
     end.

(** A non-null cell of the kind of [c0]. *)
Definition like (c0 c : cell) : Prop :=
  same_kind c0 c = true /\ notna c = true.

(** ** Further sample tables *)

Module Mixed.

(** Two sales, the Region of one a text and of the other a number. *)
Definition table : DataFrame :=
  mkDataFrame ["Date"; "Product"; "Region"; "Units"; "UnitPrice"; "Revenue"]
    [ [CTime 0; CStr "A"; CStr "East"; CNum (of_Z 1); CNum (of_Z 1); CNum (of_Z 1)];
      [CTime 0; CStr "A"; CNum (of_Z 7); CNum (of_Z 1); CNum (of_Z 1); CNum (of_Z 1)] ].

End Mixed.

(** The widgets' defaults on the sample sales, and the trend of the
    sample sales. *)
Definition sales_defaults : FilterSelection :=
  match default_selection sales_clean with
  | Ok sel => sel
  | Raise _ => mkSelection [] [] []
  end.

Definition sales_trend : list (cell * float64) :=
  match @daily_rev typed_cells sales_clean with
  | Ok (Some s) => s
  | _ => []
  end.

(* ------------------------------------------------------------------ *)
(** * Facts *)

(** ** float64: a product is NaN only as IEEE 754 says *)

Section RoundingFacts.

Variables p e : Z.

Lemma shr_1_nonneg (mrs : shr_record) :
  (0 <= shr_m mrs)%Z -> (0 <= shr_m (shr_1 mrs))%Z.
Proof.
  destruct mrs as [m r s]; simpl.
  destruct m as [|q|q]; simpl; intros H; try lia.
  - destruct q; simpl; lia.
Qed.

Lemma iter_shr_1_nonneg (n : positive) (mrs : shr_record) :
  (0 <= shr_m mrs)%Z -> (0 <= shr_m (iter_pos shr_1 n mrs))%Z.
Proof.
  revert mrs; induction n as [n IH|n IH|]; intros mrs H; simpl.
  - apply IH, IH, shr_1_nonneg, H.
  - apply IH, IH, H.
  - apply shr_1_nonneg, H.
Qed.

Lemma shr_nonneg (mrs : shr_record) (x n : Z) :
  (0 <= shr_m mrs)%Z -> (0 <= shr_m (fst (shr mrs x n)))%Z.
Proof.
  intros H; unfold shr; destruct n; simpl; auto.
  apply iter_shr_1_nonneg, H.
Qed.

Lemma shr_record_of_loc_m (m : Z) (l : location) :
  shr_m (shr_record_of_loc m l) = m.
Proof. destruct l as [|[]]; reflexivity. Qed.

Lemma shr_fexp_nonneg (m x : Z) (l : location) :
  (0 <= m)%Z -> (0 <= shr_m (fst (shr_fexp p e m x l)))%Z.
Proof.
  intros H; unfold shr_fexp; apply shr_nonneg.
  rewrite shr_record_of_loc_m; exact H.
Qed.

Lemma round_nearest_even_nonneg (m : Z) (l : location) :
  (0 <= m)%Z -> (0 <= round_nearest_even m l)%Z.
Proof.
  intros H; unfold round_nearest_even.
  destruct l as [|[]]; try lia.
  destruct (Z.even m); lia.
Qed.

Lemma binary_round_aux_not_nan (s : bool) (m x : Z) (l : location) :
  (0 <= m)%Z -> isnan (binary_round_aux p e s m x l) = false.
Proof.
  intros H; unfold binary_round_aux.
  pose proof (shr_fexp_nonneg m x l H) as H1.
  destruct (shr_fexp p e m x l) as [mrs' e'] eqn:E1; simpl in H1.
  pose proof (@shr_fexp_nonneg
                (round_nearest_even (shr_m mrs') (loc_of_shr_record mrs'))
                e' loc_Exact
                (round_nearest_even_nonneg _ _ H1)) as H2.
  destruct (shr_fexp p e _ e' loc_Exact) as [mrs'' e''] eqn:E2; simpl in H2.
  destruct (shr_m mrs'') as [|q|q]; try reflexivity; try lia.
  destruct (Z.leb e'' (e - p)); reflexivity.
Qed.

End RoundingFacts.

Lemma mul_nan_l (y : float64) : mul nan y = nan.
Proof. reflexivity. Qed.

Lemma mul_nan_r (x : float64) : mul x nan = nan.
Proof. destruct x; reflexivity. Qed.

Lemma mul_isnan (x y : float64) :
  isnan (mul x y) = isnan x || isnan y || inf_times_zero x y.
Proof.
  destruct x as [sx|sx| |sx mx ex], y as [sy|sy| |sy my ey];
    try reflexivity.
  unfold mul, SFmul.
  rewrite binary_round_aux_not_nan by lia. reflexivity.
Qed.


(** ** Labels and positions *)

Lemma positions_from_app (i : nat) (name : string) (l l' : list string) :
  positions_from i name (l ++ l')
  = positions_from i name l ++ positions_from (i + List.length l) name l'.
Proof.
  revert i; induction l as [|c l IH]; intros i; simpl.
  - now rewrite Nat.add_0_r.
  - rewrite IH, Nat.add_succ_r. simpl.
    now destruct (c =? name).
Qed.

Lemma positions_from_nil (i : nat) (name : string) (l : list string) :
  positions_from i name l = [] <-> existsb (fun c => c =? name) l = false.
Proof.
  revert i; induction l as [|c l IH]; intros i; simpl.
  - tauto.
  - destruct (c =? name); simpl.
    + split; discriminate.
    + apply IH.
Qed.

Lemma positions_from_bounds (i : nat) (name : string) (l : list string) (k : nat) :
  In k (positions_from i name l) -> (i <= k < i + List.length l)%nat.
Proof.
  revert i; induction l as [|c l IH]; intros i; simpl; [tauto|].
  destruct (c =? name); simpl; intros H.
  - destruct H as [<-|H]; [lia|]. apply IH in H; lia.
  - apply IH in H; lia.
Qed.

Lemma positions_from_label (i : nat) (name : string) (l : list string) (k : nat) :
  In k (positions_from i name l) -> nth_error l (k - i) = Some name.
Proof.
  revert i; induction l as [|c l IH]; intros i; simpl; [tauto|].
  destruct (c =? name) eqn:E; simpl; intros H.
  - destruct H as [<-|H].
    + rewrite Nat.sub_diag; simpl. apply String.eqb_eq in E; now subst.
    + pose proof (positions_from_bounds _ _ _ _ H) as B.
      apply IH in H. replace (k - i)%nat with (S (k - S i)) by lia. exact H.
  - pose proof (positions_from_bounds _ _ _ _ H) as B.
    apply IH in H. replace (k - i)%nat with (S (k - S i)) by lia. exact H.
Qed.

Lemma set_column_has (name : string) (vals : list cell) (df : DataFrame) :
  positions name (set_column name vals df) <> [].
Proof.
  unfold positions, set_column.
  destruct (existsb (fun c => c =? name) (columns df)) eqn:E; simpl.
  - intros H; apply positions_from_nil in H; congruence.
  - rewrite positions_from_app; simpl. rewrite String.eqb_refl.
    intros H; apply app_eq_nil in H; destruct H; discriminate.
Qed.

Lemma set_column_other (name other : string) (vals : list cell) (df : DataFrame) :
  other <> name ->
  positions other (set_column name vals df) = positions other df.
Proof.
  intros N; unfold positions, set_column.
  destruct (existsb (fun c => c =? name) (columns df)); simpl; auto.
  rewrite positions_from_app; simpl.
  apply String.eqb_neq in N. rewrite String.eqb_sym in N. rewrite N.
  apply app_nil_r.
Qed.

Lemma dropna_columns (names : list string) (df out : DataFrame) :
  dropna names df = Ok out -> columns out = columns df.
Proof.
  unfold dropna; destruct (subset_positions names df); simpl; [|discriminate].
  intros H; injection H as <-; reflexivity.
Qed.

Lemma dropna_rows (names : list string) (df out : DataFrame) :
  dropna names df = Ok out ->
  exists idx, subset_positions names df = Ok idx
              /\ rows out = filter (complete idx) (rows df).
Proof.
  unfold dropna; destruct (subset_positions names df) as [idx|]; simpl; [|discriminate].
  intros H; injection H as <-; exists idx; auto.
Qed.

Lemma positions_columns (name : string) (df df' : DataFrame) :
  columns df' = columns df -> positions name df' = positions name df.
Proof. unfold positions; now intros ->. Qed.

Lemma loc_columns (df df' : DataFrame) (r : list cell) (name : string) :
  columns df' = columns df -> loc df' r name = loc df r name.
Proof. unfold loc; intros H; now rewrite (positions_columns name _ _ H). Qed.

Lemma apply_filters_columns (df : DataFrame) (sel : FilterSelection)
  (range : option (list Z)) :
  columns (apply_filters df sel range) = columns df.
Proof.
  unfold apply_filters, filter_date, filter_isin, select, iloc_empty.
  destruct range as [[|d1 [|d2 [|d3 l]]]|];
    destruct (selected_product sel), (selected_region sel); reflexivity.
Qed.

Lemma apply_filters_incl (df : DataFrame) (sel : FilterSelection)
  (range : option (list Z)) (r : list cell) :
  In r (rows (apply_filters df sel range)) -> In r (rows df).
Proof.
  unfold apply_filters, filter_date, filter_isin, select, iloc_empty.
  destruct range as [[|d1 [|d2 [|d3 l]]]|];
    destruct (selected_product sel), (selected_region sel); simpl;
    repeat rewrite filter_In; tauto.
Qed.

(** ** Rows under an assignment *)

Lemma fit_length (n : nat) (r : list cell) : List.length (fit n r) = n.
Proof.
  unfold fit. rewrite length_app, repeat_length, length_firstn. lia.
Qed.

Lemma at_col_fit (n i : nat) (r : list cell) :
  (i < n)%nat -> at_col i (fit n r) = at_col i r.
Proof.
  intros H; unfold at_col, fit.
  destruct (Nat.lt_ge_cases i (List.length r)) as [L|L].
  - rewrite app_nth1 by (rewrite length_firstn; lia).
    rewrite <- (firstn_skipn n r) at 2.
    rewrite app_nth1 by (rewrite length_firstn; lia). reflexivity.
  - rewrite (nth_overflow r) by lia.
    destruct (Nat.lt_ge_cases i (List.length (firstn n r))) as [L'|L'].
    + rewrite length_firstn in L'; lia.
    + rewrite app_nth2 by lia. apply nth_repeat.
Qed.

Lemma assign_hit (name : string) (v : cell) (cols : list string) :
  forall (r : list cell) (i k : nat),
    List.length r = List.length cols ->
    In k (positions_from i name cols) ->
    nth (k - i) (assign name v cols r) CNull = v.
Proof.
  induction cols as [|c cols IH]; intros r i k L H; simpl in *; [tauto|].
  destruct r as [|x r]; simpl in L; [discriminate|].
  injection L as L.
  destruct (c =? name) eqn:E; simpl in H.
  - destruct H as [<-|H].
    + rewrite Nat.sub_diag; reflexivity.
    + pose proof (positions_from_bounds _ _ _ _ H) as B.
      replace (k - i)%nat with (S (k - S i)) by lia. simpl. now apply IH.
  - pose proof (positions_from_bounds _ _ _ _ H) as B.
    replace (k - i)%nat with (S (k - S i)) by lia. simpl. now apply IH.
Qed.

Lemma assign_miss (name : string) (v : cell) (cols : list string) :
  forall (r : list cell) (j : nat),
    nth_error cols j <> Some name ->
    nth j (assign name v cols r) CNull = nth j r CNull.
Proof.
  induction cols as [|c cols IH]; intros r j H; simpl; [reflexivity|].
  destruct r as [|x r]; [reflexivity|].
  destruct j as [|j]; simpl in *.
  - destruct (c =? name) eqn:E; [|reflexivity].
    apply String.eqb_eq in E; subst; congruence.
  - now apply IH.
Qed.

Lemma put_hit (name : string) (vals : list cell) (df : DataFrame)
  (v : cell) (r : list cell) (k : nat) :
  In k (positions name (set_column name vals df)) ->
  at_col k (put name v (columns df) r) = v.
Proof.
  unfold positions, set_column, put, at_col; simpl.
  destruct (existsb (fun c => c =? name) (columns df)) eqn:E; intros H.
  - rewrite <- (Nat.sub_0_r k). apply assign_hit; [apply fit_length|exact H].
  - rewrite positions_from_app in H. apply in_app_or in H.
    destruct H as [H|H].
    + apply (positions_from_nil 0) in E. rewrite E in H; contradiction.
    + simpl in H. rewrite String.eqb_refl in H.
      destruct H as [<-|[]]. simpl.
      rewrite app_nth2 by (rewrite fit_length; lia).
      rewrite fit_length, Nat.sub_diag. reflexivity.
Qed.

Lemma put_miss (name other : string) (df : DataFrame)
  (v : cell) (r : list cell) (k : nat) :
  other <> name ->
  In k (positions other df) ->
  at_col k (put name v (columns df) r) = at_col k r.
Proof.
  intros N H. unfold positions in H.
  pose proof (positions_from_bounds _ _ _ _ H) as B.
  pose proof (positions_from_label _ _ _ _ H) as Lb.
  rewrite Nat.sub_0_r in Lb.
  unfold put.
  destruct (existsb (fun c => c =? name) (columns df)).
  - unfold at_col at 1. rewrite assign_miss by congruence.
    apply at_col_fit; lia.
  - unfold at_col at 1. rewrite app_nth1 by (rewrite fit_length; lia).
    apply at_col_fit; lia.
Qed.

Lemma set_column_rows (name : string) (vals : list cell) (df : DataFrame)
  (r' : list cell) :
  In r' (rows (set_column name vals df)) ->
  exists r v, In r (rows df) /\ In v vals /\ r' = put name v (columns df) r.
Proof.
  unfold set_column; simpl. rewrite in_map_iff.
  intros [[r v] [<- H]]. exists r, v; simpl.
  split; [eapply in_combine_l; eauto|].
  split; [eapply in_combine_r; eauto|reflexivity].
Qed.

(** The cell a row of [set_column name vals df] has under [name], and
    under another label. *)
Lemma loc_set_same (name : string) (vals : list cell) (df : DataFrame)
  (v : cell) (r : list cell) :
  loc (set_column name vals df) (put name v (columns df) r) name = v.
Proof.
  unfold loc. pose proof (set_column_has name vals df) as H.
  destruct (positions name (set_column name vals df)) as [|i l] eqn:E;
    [congruence|].
  apply put_hit with (vals := vals). rewrite E; now left.
Qed.

Lemma loc_set_other (name other : string) (vals : list cell) (df : DataFrame)
  (v : cell) (r : list cell) :
  other <> name ->
  loc (set_column name vals df) (put name v (columns df) r) other
  = loc df r other.
Proof.
  intros N. unfold loc. rewrite (set_column_other _ _ vals df N).
  destruct (positions other df) as [|i l] eqn:E; [reflexivity|].
  apply put_miss with (other := other); auto. rewrite E; now left.
Qed.

Lemma combine_map_self (A B : Type) (f : A -> B) (l : list A) :
  combine l (map f l) = map (fun a => (a, f a)) l.
Proof. induction l; simpl; congruence. Qed.

Lemma times_getitem (df : DataFrame) (a b : string) :
  times (getitem a df) (getitem b df)
  = map (fun r => CNum (mul (as_float (loc df r a)) (as_float (loc df r b))))
        (rows df).
Proof.
  unfold times, getitem.
  induction (rows df) as [|r l IH]; simpl; congruence.
Qed.

(** ** The table before the completeness drop *)

Section NormalizerFacts.

Context {pd : Coercions}.

Lemma coerce_number_values (name : string) (df : DataFrame) (vals : list cell) :
  coerce_number name df = Ok vals ->
  forall v, In v vals ->
    exists x, v = CNum x /\ (positions name df = [] -> x = nan).
Proof.
  unfold coerce_number, get.
  destruct (positions name df) as [|i [|j l]]; intros H; inversion H; subst;
    intros v Hv; apply in_map_iff in Hv; destruct Hv as [c [<- _]];
    eexists; split; try reflexivity; auto; discriminate.
Qed.

Lemma coerce_date_values (df : DataFrame) (vals : list cell) :
  coerce_date df = Ok vals ->
  forall v, In v vals ->
    (v = CNull \/ exists t, v = CTime t)
    /\ (positions "Date" df = [] -> v = CNull).
Proof.
  unfold coerce_date, get.
  destruct (positions "Date" df) as [|i [|j l]]; intros H; inversion H; subst;
    intros v Hv; apply in_map_iff in Hv; destruct Hv as [c [<- _]].
  - auto.
  - split; [|discriminate].
    destruct (to_datetime (column i df) c); simpl; eauto.
Qed.

Lemma set_revenue_rows (df : DataFrame) (r' : list cell) :
  In r' (rows (set_column "Revenue"
                 (times (getitem "Units" df) (getitem "UnitPrice" df)) df)) ->
  exists r, In r (rows df)
    /\ r' = put "Revenue"
              (CNum (mul (as_float (loc df r "Units"))
                         (as_float (loc df r "UnitPrice"))))
              (columns df) r.
Proof.
  rewrite times_getitem. unfold set_column; simpl.
  rewrite combine_map_self, map_map; simpl.
  rewrite in_map_iff. intros [r [<- H]]. now exists r.
Qed.

(** Every row of the table of line 115: its Date is a timestamp or
    null, its Units and UnitPrice are floats, and every column
    labelled Revenue holds their product.  A column absent from the
    source is null throughout. *)
Lemma with_revenue_rows (raw pre : DataFrame) :
  with_revenue raw = Ok pre ->
  forall r, In r (rows pre) ->
    exists d u p,
      loc pre r "Date" = d
      /\ (d = CNull \/ exists t, d = CTime t)
      /\ loc pre r "Units" = CNum u
      /\ loc pre r "UnitPrice" = CNum p
      /\ (forall k, In k (positions "Revenue" pre) ->
                    at_col k r = CNum (mul u p))
      /\ (positions "Date" (rename (strip_columns raw)) = [] -> d = CNull)
      /\ (positions "Units" (rename (strip_columns raw)) = [] -> u = nan)
      /\ (positions "UnitPrice" (rename (strip_columns raw)) = [] -> p = nan).
Proof.
  unfold with_revenue.
  set (df0 := rename (strip_columns raw)).
  destruct (coerce_date df0) as [dates|] eqn:Ed; simpl; [|discriminate].
  set (df1 := set_column "Date" dates df0).
  destruct (coerce_number "Units" df1) as [units|] eqn:Eu; simpl; [|discriminate].
  set (df2 := set_column "Units" units df1).
  destruct (coerce_number "UnitPrice" df2) as [prices|] eqn:Ep; simpl; [|discriminate].
  set (df3 := set_column "UnitPrice" prices df2).
  intros H r4 H4; injection H as <-.
  apply set_revenue_rows in H4. destruct H4 as [r3 [H3 ->]].
  apply set_column_rows in H3. destruct H3 as [r2 [v2 [H2 [Hv2 ->]]]].
  apply set_column_rows in H2. destruct H2 as [r1 [v1 [H1 [Hv1 ->]]]].
  apply set_column_rows in H1. destruct H1 as [r0 [v0 [H0 [Hv0 ->]]]].
  destruct (coerce_number_values _ _ _ Ep _ Hv2) as [p [-> Np]].
  destruct (coerce_number_values _ _ _ Eu _ Hv1) as [u [-> Nu]].
  destruct (coerce_date_values _ _ Ed _ Hv0) as [Kd Nd].
  assert (L2 : loc df3 (put "UnitPrice" (CNum p) (columns df2)
                 (put "Units" (CNum u) (columns df1)
                    (put "Date" v0 (columns df0) r0))) "UnitPrice" = CNum p)
    by apply loc_set_same.
  assert (L1 : loc df3 (put "UnitPrice" (CNum p) (columns df2)
                 (put "Units" (CNum u) (columns df1)
                    (put "Date" v0 (columns df0) r0))) "Units" = CNum u).
  { unfold df3. rewrite loc_set_other by discriminate. apply loc_set_same. }
  exists v0, u, p.
  repeat split.
  - rewrite loc_set_other by discriminate. unfold df3.
    rewrite loc_set_other by discriminate. unfold df2.
    rewrite loc_set_other by discriminate. apply loc_set_same.
  - exact Kd.
  - rewrite loc_set_other by discriminate. exact L1.
  - rewrite loc_set_other by discriminate. exact L2.
  - intros k Hk. rewrite L1, L2. cbn [as_float].
    eapply put_hit; exact Hk.
  - exact Nd.
  - intros N. apply Nu. unfold df1.
    rewrite set_column_other by discriminate. exact N.
  - intros N. apply Np. unfold df2, df1.
    rewrite !set_column_other by discriminate. exact N.
Qed.

Lemma with_revenue_has_revenue (raw pre : DataFrame) :
  with_revenue raw = Ok pre -> positions "Revenue" pre <> [].
Proof.
  unfold with_revenue.
  destruct (coerce_date _); simpl; [|discriminate].
  destruct (coerce_number "Units" _); simpl; [|discriminate].
  destruct (coerce_number "UnitPrice" _); simpl; [|discriminate].
  intros H; injection H as <-. apply set_column_has.
Qed.

Lemma normalize_inv (raw df : DataFrame) :
  normalize raw = Ok df ->
  exists pre idx,
    with_revenue raw = Ok pre
    /\ subset_positions required pre = Ok idx
    /\ columns df = columns pre
    /\ rows df = filter (complete idx) (rows pre).
Proof.
  unfold normalize.
  destruct (with_revenue raw) as [pre|] eqn:E; simpl; [|discriminate].
  intros H. pose proof (dropna_columns _ _ _ H) as C.
  destruct (dropna_rows _ _ _ H) as [idx [S R]].
  exists pre, idx; auto.
Qed.

End NormalizerFacts.

(** ** The completeness drop *)

Lemma subset_positions_cons (n : string) (names : list string) (df : DataFrame)
  (idx : list nat) :
  subset_positions (n :: names) df = Ok idx ->
  exists rest, positions n df <> []
               /\ subset_positions names df = Ok rest
               /\ idx = positions n df ++ rest.
Proof.
  cbn [subset_positions].
  destruct (positions n df) as [|i ps]; [discriminate|].
  destruct (subset_positions names df) as [rest|]; cbn [bind]; [|discriminate].
  intros H; injection H as <-. exists rest. repeat split. discriminate.
Qed.

Lemma subset_positions_In (names : list string) (df : DataFrame) (idx : list nat) :
  subset_positions names df = Ok idx ->
  forall name k, In name names -> In k (positions name df) -> In k idx.
Proof.
  revert idx; induction names as [|n names IH]; intros idx H name k Hn Hk.
  - destruct Hn.
  - destruct (subset_positions_cons _ _ _ _ H) as (rest & P & S & ->).
    apply in_or_app. destruct Hn as [->|Hn]; [now left|right].
    eapply IH; eauto.
Qed.

Lemma subset_positions_only (names : list string) (df : DataFrame) (idx : list nat) :
  subset_positions names df = Ok idx ->
  forall k, In k idx -> exists name, In name names /\ In k (positions name df).
Proof.
  revert idx; induction names as [|n names IH]; intros idx H k Hk.
  - cbn in H. injection H as <-. destruct Hk.
  - destruct (subset_positions_cons _ _ _ _ H) as (rest & P & S & ->).
    apply in_app_or in Hk. destruct Hk as [Hk|Hk].
    + exists n. split; [now left|exact Hk].
    + destruct (IH rest S k Hk) as [name [A B]]. exists name; split; [now right|exact B].
Qed.

Lemma subset_positions_present (names : list string) (df : DataFrame) (idx : list nat) :
  subset_positions names df = Ok idx ->
  forall name, In name names -> positions name df <> [].
Proof.
  revert idx; induction names as [|n names IH]; intros idx H name Hn.
  - destruct Hn.
  - destruct (subset_positions_cons _ _ _ _ H) as (rest & P & S & ->).
    destruct Hn as [<-|Hn]; [exact P|]. eapply IH; eauto.
Qed.

(** A row that passes the drop is non-null under each of the labels. *)
Lemma complete_loc (names : list string) (df : DataFrame) (idx : list nat)
  (r : list cell) (name : string) :
  subset_positions names df = Ok idx ->
  complete idx r = true ->
  In name names ->
  isna (loc df r name) = false.
Proof.
  intros S C Hn. unfold loc.
  pose proof (subset_positions_present _ _ _ S _ Hn) as P.
  destruct (positions name df) as [|i ps] eqn:E; [congruence|].
  unfold complete in C. rewrite forallb_forall in C.
  assert (Hi : In i idx).
  { eapply subset_positions_In; eauto. rewrite E; now left. }
  specialize (C i Hi). unfold notna in C.
  now apply negb_true_iff in C.
Qed.

Lemma filter_all (A : Type) (f : A -> bool) (l : list A) :
  (forall x, In x l -> f x = true) -> filter f l = l.
Proof.
  induction l as [|a l IH]; intros H; simpl; [reflexivity|].
  rewrite (H a) by now left. f_equal. apply IH. intros x Hx. apply H. now right.
Qed.

Lemma filter_none (A : Type) (f : A -> bool) (l : list A) :
  (forall x, In x l -> f x = false) -> filter f l = [].
Proof.
  induction l as [|a l IH]; intros H; simpl; [reflexivity|].
  rewrite (H a) by now left. apply IH. intros x Hx. apply H. now right.
Qed.

Lemma isna_as_float (c : cell) : isna c = true -> isnan (as_float c) = true.
Proof. destruct c; simpl; auto; discriminate. Qed.

(* ------------------------------------------------------------------ *)
(** * Properties of the pipeline *)

(** ** C2: Revenue *)



(** ** C9: the final Revenue drop *)

Section FilterFacts.

Context {pd : Coercions}.

Lemma normalize_has_revenue (raw df : DataFrame) :
  normalize raw = Ok df -> positions "Revenue" df <> [].
Proof.
  intros N. destruct (normalize_inv _ _ N) as (pre & idx & W & _ & C & _).
  rewrite (positions_columns _ _ _ C).
  exact (with_revenue_has_revenue _ _ W).
Qed.

(** A retained row: Units and UnitPrice are non-NaN floats and every
    Revenue column holds their product. *)
Lemma normalize_rows (raw df : DataFrame) :
  normalize raw = Ok df ->
  forall r, In r (rows df) ->
    exists u p,
      loc df r "Units" = CNum u /\ isnan u = false
      /\ loc df r "UnitPrice" = CNum p /\ isnan p = false
      /\ isna (loc df r "Date") = false
      /\ isna (loc df r "Product") = false
      /\ isna (loc df r "Region") = false
      /\ (forall k, In k (positions "Revenue" df) -> at_col k r = CNum (mul u p)).
Proof.
  intros N r Hr.
  destruct (normalize_inv _ _ N) as (pre & idx & W & S & C & Rw).
  rewrite Rw in Hr. apply filter_In in Hr. destruct Hr as [Hr Cm].
  destruct (with_revenue_rows _ _ W _ Hr) as (d & u & p & _ & _ & U & P & R & _).
  assert (Q : forall name, In name required -> isna (loc df r name) = false).
  { intros name Hn. rewrite (loc_columns _ _ _ _ C).
    eapply complete_loc; eauto. }
  exists u, p.
  rewrite !(loc_columns _ _ _ _ C) in *. rewrite (positions_columns _ _ _ C).
  pose proof (Q "Units") as QU. pose proof (Q "UnitPrice") as QP.
  rewrite (loc_columns _ _ _ _ C), U in QU.
  rewrite (loc_columns _ _ _ _ C), P in QP.
  repeat split; auto.
  - apply QU. simpl; tauto.
  - apply QP. simpl; tauto.
  - rewrite <- (loc_columns pre df r "Date" C). apply Q. simpl; tauto.
  - rewrite <- (loc_columns pre df r "Product" C). apply Q. simpl; tauto.
  - rewrite <- (loc_columns pre df r "Region" C). apply Q. simpl; tauto.
Qed.

End FilterFacts.

Lemma dropna_revenue (df : DataFrame) :
  positions "Revenue" df <> [] ->
  dropna ["Revenue"] df
  = Ok (mkDataFrame (columns df)
          (filter (complete (positions "Revenue" df)) (rows df))).
Proof.
  intros H. unfold dropna; cbn [subset_positions].
  destruct (positions "Revenue" df) as [|i l]; [congruence|].
  cbn [bind]. now rewrite app_nil_r.
Qed.

Lemma loc_revenue (df : DataFrame) (r : list cell) (v : cell) :
  positions "Revenue" df <> [] ->
  (forall k, In k (positions "Revenue" df) -> at_col k r = v) ->
  loc df r "Revenue" = v.
Proof.
  intros N H. unfold loc.
  destruct (positions "Revenue" df) as [|i l]; [congruence|].
  apply H; now left.
Qed.

(** C9, amended.  In a row that survives the completeness drop Units
    and UnitPrice are non-null, and its Revenue is null exactly when
    they are an infinity and a zero (the one float product of non-NaN
    operands that is NaN).  The three filters only remove rows.  So
    when no surviving row multiplies an infinity by a zero, every row
    has a non-null Revenue and the final Revenue drop removes nothing:
    the Revenue-complete table is the filtered table. *)
Theorem revenue_drop_removes_nothing {pd : Coercions}
  (raw df : DataFrame) (sel : FilterSelection) (range : option (list Z)) :
  normalize raw = Ok df ->
  (forall r, In r (rows df) ->
     isna (loc df r "Units") = false
     /\ isna (loc df r "UnitPrice") = false
     /\ isna (loc df r "Revenue")
        = inf_times_zero (as_float (loc df r "Units"))
                         (as_float (loc df r "UnitPrice")))
  /\ (forall r, In r (rows (apply_filters df sel range)) -> In r (rows df))
  /\ (no_inf_times_zero df ->
      (forall r, In r (rows df) -> isna (loc df r "Revenue") = false)
      /\ filter_engine df sel range = Ok (apply_filters df sel range)).
Proof.
  intros N.
  pose proof (normalize_has_revenue _ _ N) as HR.
  assert (A : forall r, In r (rows df) ->
     isna (loc df r "Units") = false
     /\ isna (loc df r "UnitPrice") = false
     /\ isna (loc df r "Revenue")
        = inf_times_zero (as_float (loc df r "Units"))
                         (as_float (loc df r "UnitPrice"))).
  { intros r Hr.
    destruct (normalize_rows _ _ N _ Hr) as (u & p & U & Nu & P & Np & _ & _ & _ & R).
    rewrite (loc_revenue df r _ HR R), U, P. cbn [isna as_float].
    rewrite mul_isnan, Nu, Np. auto. }
  split; [exact A|]. split; [apply apply_filters_incl|].
  intros F.
  assert (B : forall r, In r (rows df) -> isna (loc df r "Revenue") = false).
  { intros r Hr. destruct (A r Hr) as (_ & _ & ->). now apply F. }
  split; [exact B|].
  unfold filter_engine.
  pose proof (apply_filters_columns df sel range) as C.
  rewrite dropna_revenue by (rewrite (positions_columns _ _ _ C); exact HR).
  rewrite filter_all.
  - now destruct (apply_filters df sel range).
  - intros r Hr. apply apply_filters_incl in Hr.
    destruct (normalize_rows _ _ N _ Hr) as (u & p & U & Nu & P & Np & _ & _ & _ & R).
    unfold complete. apply forallb_forall. intros k Hk.
    rewrite (positions_columns _ _ _ C) in Hk.
    specialize (B r Hr). rewrite (loc_revenue df r _ HR R) in B.
    rewrite (R k Hk). unfold notna. now rewrite B.
Qed.

(** C9 as stated fails: this row survives the completeness drop with a
    null Revenue, passes the three filters, and is removed by the final
    Revenue drop. *)
Lemma revenue_drop_removes_a_row :
  @normalize typed_cells InfTimesZero.raw = Ok InfTimesZero.kept
  /\ map (fun r => isna (loc InfTimesZero.kept r "Revenue"))
         (rows InfTimesZero.kept) = [true]
  /\ apply_filters InfTimesZero.kept InfTimesZero.everything
       (date_range InfTimesZero.kept InfTimesZero.everything)
     = InfTimesZero.kept
  /\ filter_engine InfTimesZero.kept InfTimesZero.everything
       (date_range InfTimesZero.kept InfTimesZero.everything)
     = Ok (mkDataFrame (columns InfTimesZero.kept) []).
Proof. repeat split. Qed.

Lemma revenue_drop_removes_nothing_witness :
  (forall r, In r (rows one_sale_clean) ->
             isna (loc one_sale_clean r "Revenue") = false)
  /\ filter_engine one_sale_clean InfTimesZero.everything None
     = Ok (apply_filters one_sale_clean InfTimesZero.everything None).
Proof.
  assert (N : @normalize typed_cells InfTimesZero.one_sale = Ok one_sale_clean)
    by (vm_compute; reflexivity).
  apply (proj2 (proj2 (@revenue_drop_removes_nothing typed_cells
                         InfTimesZero.one_sale one_sale_clean
                         InfTimesZero.everything None N))).
  intros r Hr. vm_compute in Hr. destruct Hr as [<-|[]].
  vm_compute. reflexivity.
Defined.

(** ** C3: an empty selection *)

Lemma filter_date_empty (range : option (list Z)) (df : DataFrame) :
  rows df = [] -> rows (filter_date range df) = [].
Proof.
  intros H. unfold filter_date, select.
  destruct range as [[|d1 [|d2 [|d3 l]]]|]; simpl; rewrite ?H; reflexivity.
Qed.

Lemma filter_isin_empty (name : string) (selected : list cell) (df : DataFrame) :
  rows df = [] -> rows (filter_isin name selected df) = [].
Proof.
  intros H. unfold filter_isin, select, iloc_empty.
  destruct selected; simpl; rewrite ?H; reflexivity.
Qed.

Lemma apply_filters_empty_selection (df : DataFrame) (sel : FilterSelection)
  (range : option (list Z)) :
  selected_region sel = [] \/ selected_product sel = [] ->
  rows (apply_filters df sel range) = [].
Proof.
  intros H. unfold apply_filters.
  apply filter_date_empty.
  destruct H as [H|H]; rewrite H.
  - apply filter_isin_empty. reflexivity.
  - reflexivity.
Qed.

(** C3.  On a cleaned table, when the selected Region set or the
    selected Product set is empty, the Filter Engine returns the table
    with the same columns and no row, whatever the other selection and
    whatever the date range. *)
Theorem empty_selection_gives_no_rows {pd : Coercions}
  (raw df : DataFrame) (sel : FilterSelection) (range : option (list Z)) :
  normalize raw = Ok df ->
  selected_region sel = [] \/ selected_product sel = [] ->
  rows (apply_filters df sel range) = []
  /\ filter_engine df sel range = Ok (mkDataFrame (columns df) []).
Proof.
  intros N H.
  pose proof (apply_filters_empty_selection df sel range H) as E.
  split; [exact E|].
  unfold filter_engine.
  pose proof (apply_filters_columns df sel range) as C.
  rewrite dropna_revenue.
  - rewrite E, C. reflexivity.
  - rewrite (positions_columns _ _ _ C). exact (normalize_has_revenue _ _ N).
Qed.

Lemma empty_selection_gives_no_rows_witness :
  rows (apply_filters sales_clean
          (mkSelection [] [CStr "A"; CStr "B"] [19000%Z; 19002%Z])
          (Some [19000%Z; 19002%Z])) = []
  /\ filter_engine sales_clean
       (mkSelection [] [CStr "A"; CStr "B"] [19000%Z; 19002%Z])
       (Some [19000%Z; 19002%Z])
     = Ok (mkDataFrame (columns sales_clean) []).
Proof.
  apply (@empty_selection_gives_no_rows typed_cells Samples.sales).
  - vm_compute. reflexivity.
  - left. reflexivity.
Defined.

(** ** C4: the end of the date range *)

Lemma filter_date_rows (d1 d2 : Z) (df : DataFrame) (r : list cell) :
  In r (rows (filter_date (Some [d1; d2]) df))
  <-> In r (rows df)
      /\ exists t, loc df r "Date" = CTime t
                   /\ (midnight d1 <= t <= midnight d2 + day - second)%Z.
Proof.
  unfold filter_date, select; simpl. rewrite filter_In. unfold in_range, date_of.
  split; intros [H K]; split; auto.
  - destruct (loc df r "Date"); try discriminate.
    exists t. split; auto. apply andb_true_iff in K. lia.
  - destruct K as (t & -> & K). apply andb_true_iff. lia.
Qed.

(** A row stamped 23:59:59 on the end date is kept. *)
Lemma last_second_kept (d1 d2 : Z) (df : DataFrame) (r : list cell) :
  (d1 <= d2)%Z ->
  In r (rows df) ->
  loc df r "Date" = CTime (midnight d2 + 23 * 3600 * second + 59 * 60 * second + 59 * second) ->
  In r (rows (filter_date (Some [d1; d2]) df)).
Proof.
  intros L H E. apply filter_date_rows. split; auto.
  eexists; split; [exact E|]. unfold midnight, day, second. lia.
Qed.

(** Every row stamped after the end date is removed. *)
Lemma next_day_removed (d1 d2 t : Z) (df : DataFrame) (r : list cell) :
  loc df r "Date" = CTime t ->
  (midnight (d2 + 1) <= t)%Z ->
  ~ In r (rows (filter_date (Some [d1; d2]) df)).
Proof.
  intros E L H. apply filter_date_rows in H.
  destruct H as (_ & t' & E' & K). rewrite E in E'. injection E' as <-.
  unfold midnight, day, second in *. lia.
Qed.

(** C4 at the range [D2, D2]: the row stamped 23:59:59 on D2 is kept
    and the row stamped 00:00:01 on D2+1 is removed, as claimed; the
    row stamped 23:59:59.5 on D2, which lies within D2, is removed
    too. *)
Theorem last_half_second_removed :
  (midnight EndOfDay.d2 <= EndOfDay.at_235959_5 < midnight (EndOfDay.d2 + 1))%Z
  /\ rows (filter_date (Some [EndOfDay.d2; EndOfDay.d2]) EndOfDay.table)
     = [EndOfDay.stamped EndOfDay.at_235959].
Proof.
  split; [|reflexivity].
  unfold EndOfDay.at_235959_5, EndOfDay.d2, midnight, day, second. lia.
Qed.

(** ** C5: the KPIs of the empty table *)

Lemma getitem_empty (name : string) (df : DataFrame) :
  rows df = [] -> getitem name df = [].
Proof. unfold getitem; now intros ->. Qed.

Lemma empty_table_kpis_aux (df : DataFrame) (i : nat) :
  rows df = [] -> get "Revenue" df = Series i -> exists s, aggregate df = Ok s.
Proof.
  intros _ G. unfold aggregate. rewrite G. eexists; reflexivity.
Qed.

(** C5.  On the empty filtered table the total revenue and the total
    units are 0.0, the average unit price is computed without a
    division and is NaN, and the tile renders it as the text "$nan";
    nothing raises. *)
Theorem empty_table_kpis (df : DataFrame) (i : nat) :
  rows df = [] ->
  get "Revenue" df = Series i ->
  exists s,
    aggregate df = Ok s
    /\ total_revenue s = zero
    /\ total_units s = zero
    /\ avg_unit_price s = nan
    /\ tile_total_revenue (render_kpis s) = "$0"
    /\ tile_total_units (render_kpis s) = "0"
    /\ tile_avg_unit_price (render_kpis s) = "$nan".
Proof.
  intros E G. unfold aggregate. rewrite G.
  eexists; split; [reflexivity|].
  cbn [total_revenue total_units avg_unit_price render_kpis
       tile_total_revenue tile_total_units tile_avg_unit_price].
  rewrite !(getitem_empty _ df E).
  repeat split.
Qed.

Lemma empty_table_kpis_witness :
  exists s,
    aggregate (mkDataFrame (columns sales_clean) []) = Ok s
    /\ total_revenue s = zero
    /\ total_units s = zero
    /\ avg_unit_price s = nan
    /\ tile_total_revenue (render_kpis s) = "$0"
    /\ tile_total_units (render_kpis s) = "0"
    /\ tile_avg_unit_price (render_kpis s) = "$nan".
Proof.
  apply (empty_table_kpis (mkDataFrame (columns sales_clean) []) 5);
    reflexivity.
Defined.

(** ** C1 and C10: a canonical column that the source lacks *)

Lemma set_column_count (name : string) (vals : list cell) (df : DataFrame) :
  List.length (positions name (set_column name vals df))
  = Nat.max 1 (List.length (positions name df)).
Proof.
  unfold positions, set_column; cbn [columns].
  destruct (existsb (fun c => c =? name) (columns df)) eqn:E.
  - destruct (positions_from 0 name (columns df)) as [|i l] eqn:P.
    + apply (positions_from_nil 0) in P. congruence.
    + simpl. lia.
  - rewrite positions_from_app. apply (positions_from_nil 0) in E. rewrite E.
    simpl. now rewrite String.eqb_refl.
Qed.

Lemma set_column_length (name : string) (vals : list cell) (df : DataFrame) :
  List.length vals = List.length (rows df) ->
  List.length (rows (set_column name vals df)) = List.length (rows df).
Proof.
  intros H. unfold set_column; cbn [rows].
  rewrite length_map, length_combine. lia.
Qed.

Lemma get_series (name : string) (df : DataFrame) :
  positions name df <> [] ->
  (List.length (positions name df) <= 1)%nat ->
  exists i, get name df = Series i.
Proof.
  unfold get. destruct (positions name df) as [|i [|j l]]; simpl; intros N L.
  - congruence.
  - now exists i.
  - lia.
Qed.

Section MissingColumns.

Context {pd : Coercions}.

Lemma coerce_date_ok (df : DataFrame) :
  (List.length (positions "Date" df) <= 1)%nat ->
  exists vals, coerce_date df = Ok vals
               /\ List.length vals = List.length (rows df).
Proof.
  unfold coerce_date, get, column.
  destruct (positions "Date" df) as [|i [|j l]]; simpl; intros L.
  - eexists; split; [reflexivity|]. now rewrite length_map.
  - eexists; split; [reflexivity|]. now rewrite !length_map.
  - lia.
Qed.

Lemma coerce_number_ok (name : string) (df : DataFrame) :
  (List.length (positions name df) <= 1)%nat ->
  exists vals, coerce_number name df = Ok vals
               /\ List.length vals = List.length (rows df).
Proof.
  unfold coerce_number, get, column.
  destruct (positions name df) as [|i [|j l]]; simpl; intros L.
  - eexists; split; [reflexivity|]. now rewrite length_map.
  - eexists; split; [reflexivity|]. now rewrite !length_map.
  - lia.
Qed.

Lemma coerce_date_length (df : DataFrame) (vals : list cell) :
  coerce_date df = Ok vals -> List.length vals = List.length (rows df).
Proof.
  unfold coerce_date, get, column.
  destruct (positions "Date" df) as [|i [|j l]]; intros H; inversion H;
    now rewrite ?length_map.
Qed.

Lemma coerce_number_length (name : string) (df : DataFrame) (vals : list cell) :
  coerce_number name df = Ok vals -> List.length vals = List.length (rows df).
Proof.
  unfold coerce_number, get, column.
  destruct (positions name df) as [|i [|j l]]; intros H; inversion H;
    now rewrite ?length_map.
Qed.

(** Where the labels of the table of line 115 sit. *)
Lemma with_revenue_positions (raw pre : DataFrame) :
  with_revenue raw = Ok pre ->
  (forall name, name <> "Date" -> name <> "Units" -> name <> "UnitPrice" ->
                name <> "Revenue" ->
                positions name pre = positions name (labels raw))
  /\ (forall name, In name ["Date"; "Units"; "UnitPrice"; "Revenue"] ->
        List.length (positions name pre)
        = Nat.max 1 (List.length (positions name (labels raw))))
  /\ List.length (rows pre) = List.length (rows raw).
Proof.
  unfold with_revenue. fold (labels raw).
  set (df0 := labels raw).
  destruct (coerce_date df0) as [dates|] eqn:Ed; cbn [bind]; [|discriminate].
  set (df1 := set_column "Date" dates df0).
  destruct (coerce_number "Units" df1) as [units|] eqn:Eu; cbn [bind]; [|discriminate].
  set (df2 := set_column "Units" units df1).
  destruct (coerce_number "UnitPrice" df2) as [prices|] eqn:Ep; cbn [bind]; [|discriminate].
  set (df3 := set_column "UnitPrice" prices df2).
  intros H; injection H as <-.
  split; [|split].
  - intros name N1 N2 N3 N4.
    rewrite set_column_other by assumption. unfold df3.
    rewrite set_column_other by assumption. unfold df2.
    rewrite set_column_other by assumption. unfold df1.
    now rewrite set_column_other by assumption.
  - intros name [<-|[<-|[<-|[<-|[]]]]].
    + rewrite set_column_other by discriminate. unfold df3.
      rewrite set_column_other by discriminate. unfold df2.
      rewrite set_column_other by discriminate. apply set_column_count.
    + rewrite set_column_other by discriminate. unfold df3.
      rewrite set_column_other by discriminate. unfold df2.
      rewrite set_column_count. unfold df1.
      now rewrite set_column_other by discriminate.
    + rewrite set_column_other by discriminate. unfold df3.
      rewrite set_column_count. unfold df2, df1.
      now rewrite !set_column_other by discriminate.
    + rewrite set_column_count. unfold df3, df2, df1.
      now rewrite !set_column_other by discriminate.
  - assert (L0 : List.length (rows df0) = List.length (rows raw)) by reflexivity.
    pose proof (coerce_date_length _ _ Ed) as Ld.
    pose proof (set_column_length "Date" dates df0 Ld) as L1. fold df1 in L1.
    pose proof (coerce_number_length _ _ _ Eu) as Lu.
    pose proof (set_column_length "Units" units df1 Lu) as L2. fold df2 in L2.
    pose proof (coerce_number_length _ _ _ Ep) as Lp.
    pose proof (set_column_length "UnitPrice" prices df2 Lp) as L3. fold df3 in L3.
    rewrite set_column_length.
    + congruence.
    + rewrite times_getitem, length_map. reflexivity.
Qed.

Lemma with_revenue_ok (raw : DataFrame) :
  (List.length (positions "Date" (labels raw)) <= 1)%nat ->
  (List.length (positions "Units" (labels raw)) <= 1)%nat ->
  (List.length (positions "UnitPrice" (labels raw)) <= 1)%nat ->
  exists pre, with_revenue raw = Ok pre.
Proof.
  intros Hd Hu Hp. unfold with_revenue. fold (labels raw).
  destruct (coerce_date_ok _ Hd) as (dates & -> & _); cbn [bind].
  destruct (coerce_number_ok "Units" (set_column "Date" dates (labels raw)))
    as (units & -> & _); cbn [bind].
  { now rewrite set_column_other by discriminate. }
  destruct (coerce_number_ok "UnitPrice"
              (set_column "Units" units (set_column "Date" dates (labels raw))))
    as (prices & -> & _); cbn [bind].
  { now rewrite !set_column_other by discriminate. }
  eexists; reflexivity.
Qed.

Lemma subset_positions_raise (names : list string) (df : DataFrame) :
  (exists name, In name names /\ positions name df = []) ->
  subset_positions names df = Raise KeyError.
Proof.
  induction names as [|n names IH]; intros (name & Hn & P).
  - destruct Hn.
  - cbn [subset_positions].
    destruct (positions n df) as [|i ps] eqn:E; [reflexivity|].
    destruct Hn as [->|Hn]; [congruence|].
    rewrite IH by eauto. reflexivity.
Qed.

Lemma subset_positions_ok (names : list string) (df : DataFrame) :
  (forall name, In name names -> positions name df <> []) ->
  exists idx, subset_positions names df = Ok idx.
Proof.
  induction names as [|n names IH]; intros H.
  - eexists; reflexivity.
  - cbn [subset_positions].
    pose proof (H n (or_introl eq_refl)) as P.
    destruct (positions n df) as [|i ps]; [congruence|].
    destruct IH as [rest ->]; [intros; apply H; now right|].
    eexists; reflexivity.
Qed.

(** Without a Product or a Region column the Normalizer raises. *)
Lemma missing_label_raises (raw : DataFrame) (name : string) :
  name = "Product" \/ name = "Region" ->
  positions name (labels raw) = [] ->
  exists e, normalize raw = Raise e.
Proof.
  intros Hn P. unfold normalize.
  destruct (with_revenue raw) as [pre|e] eqn:W; cbn [bind]; [|now exists e].
  exists KeyError. unfold dropna.
  rewrite subset_positions_raise; [reflexivity|].
  exists name. split.
  - unfold required. destruct Hn as [-> | ->]; simpl; tauto.
  - destruct (with_revenue_positions _ _ W) as (O & _ & _).
    rewrite O; [exact P| | | |]; destruct Hn as [-> | ->]; discriminate.
Qed.

End MissingColumns.

(** C1, on a table of two complete sales that has no Region column:
    the completeness drop raises KeyError (the label Region is not a
    column), and so does the run; no table is produced. *)
Theorem missing_region_raises_key_error (pd : Coercions) (sel : FilterSelection) :
  normalize NoRegion.raw = Raise KeyError
  /\ run NoRegion.raw sel = Raise KeyError.
Proof. split; reflexivity. Qed.

Lemma filter_engine_empty (df : DataFrame) (sel : FilterSelection)
  (range : option (list Z)) :
  rows df = [] ->
  positions "Revenue" df <> [] ->
  filter_engine df sel range = Ok (mkDataFrame (columns df) []).
Proof.
  intros E P. unfold filter_engine.
  pose proof (apply_filters_columns df sel range) as C.
  assert (R : rows (apply_filters df sel range) = []).
  { unfold apply_filters. apply filter_date_empty.
    apply filter_isin_empty. apply filter_isin_empty. exact E. }
  rewrite dropna_revenue by (rewrite (positions_columns _ _ _ C); exact P).
  now rewrite R, C.
Qed.

Lemma options_empty (name : string) (df : DataFrame) (i : nat) :
  rows df = [] -> get name df = Series i -> options name df = Ok [].
Proof.
  intros E G. unfold options, column. rewrite G, E. reflexivity.
Qed.

(** C10, amended.  Take a raw table in which, after the labels are
    normalised, Product and Region are columns, no label among Date,
    Product, Region, Units, UnitPrice and Revenue is carried by two
    columns, and Date, Units or UnitPrice is absent.  The Normalizer
    then creates each absent column filled with nulls, on as many rows
    as the source has; the completeness drop removes every row; and the
    run ends without an error, on an empty table. *)
Theorem missing_column_drops_all_rows {pd : Coercions}
  (raw : DataFrame) (sel : FilterSelection) :
  (forall name, In name canonical ->
                (List.length (positions name (labels raw)) <= 1)%nat) ->
  positions "Product" (labels raw) <> [] ->
  positions "Region" (labels raw) <> [] ->
  positions "Date" (labels raw) = []
  \/ positions "Units" (labels raw) = []
  \/ positions "UnitPrice" (labels raw) = [] ->
  exists pre df d,
    with_revenue raw = Ok pre
    /\ List.length (rows pre) = List.length (rows raw)
    /\ (forall r, In r (rows pre) ->
          (positions "Date" (labels raw) = [] -> loc pre r "Date" = CNull)
          /\ (positions "Units" (labels raw) = [] -> loc pre r "Units" = CNum nan)
          /\ (positions "UnitPrice" (labels raw) = [] ->
              loc pre r "UnitPrice" = CNum nan))
    /\ normalize raw = Ok df
    /\ rows df = []
    /\ run raw sel = Ok d
    /\ rows (df_clean d) = [].
Proof.
  intros Once HP HR Missing.
  destruct (with_revenue_ok raw) as [pre W];
    try (apply Once; unfold canonical; simpl; tauto).
  destruct (with_revenue_positions _ _ W) as (O & Cn & Len).
  assert (Rows : forall r, In r (rows pre) ->
          (positions "Date" (labels raw) = [] -> loc pre r "Date" = CNull)
          /\ (positions "Units" (labels raw) = [] -> loc pre r "Units" = CNum nan)
          /\ (positions "UnitPrice" (labels raw) = [] ->
              loc pre r "UnitPrice" = CNum nan)).
  { intros r Hr.
    destruct (with_revenue_rows _ _ W _ Hr)
      as (d & u & p & D & _ & U & P & _ & Nd & Nu & Np).
    repeat split; intros N.
    - rewrite D. now apply Nd.
    - rewrite U. now rewrite Nu.
    - rewrite P. now rewrite Np. }
  assert (Present : forall name, In name required -> positions name pre <> []).
  { intros name Hn.
    assert (K : forall n, In n ["Date"; "Units"; "UnitPrice"; "Revenue"] ->
                          positions n pre <> []).
    { intros n Hin E. specialize (Cn n Hin). rewrite E in Cn.
      change (List.length (@nil nat)) with 0%nat in Cn. lia. }
    unfold required in Hn. simpl in Hn.
    destruct Hn as [<-|[<-|[<-|[<-|[<-|[]]]]]].
    - apply K; simpl; tauto.
    - rewrite O by discriminate. exact HP.
    - rewrite O by discriminate. exact HR.
    - apply K; simpl; tauto.
    - apply K; simpl; tauto. }
  destruct (subset_positions_ok required pre Present) as [idx S].
  assert (Gone : filter (complete idx) (rows pre) = []).
  { apply filter_none. intros r Hr.
    destruct (complete idx r) eqn:C; [|reflexivity].
    destruct (Rows r Hr) as (Rd & Ru & Rp).
    destruct Missing as [M|[M|M]].
    - pose proof (complete_loc required pre idx r "Date" S C) as Q.
      rewrite (Rd M) in Q. simpl in Q. discriminate Q. simpl; tauto.
    - pose proof (complete_loc required pre idx r "Units" S C) as Q.
      rewrite (Ru M) in Q. simpl in Q. discriminate Q. simpl; tauto.
    - pose proof (complete_loc required pre idx r "UnitPrice" S C) as Q.
      rewrite (Rp M) in Q. simpl in Q. discriminate Q. simpl; tauto. }
  set (df := mkDataFrame (columns pre) []).
  assert (N : normalize raw = Ok df).
  { unfold normalize, dropna. rewrite W; cbn [bind]. rewrite S; cbn [bind].
    now rewrite Gone. }
  assert (Pos : forall name, positions name df = positions name pre)
    by reflexivity.
  assert (Rev : positions "Revenue" df <> []).
  { rewrite Pos. exact (with_revenue_has_revenue _ _ W). }
  destruct (get_series "Region" df) as [i Gi].
  { rewrite Pos, O by discriminate. exact HR. }
  { rewrite Pos, O by discriminate. apply Once. unfold canonical; simpl; tauto. }
  destruct (get_series "Product" df) as [j Gj].
  { rewrite Pos, O by discriminate. exact HP. }
  { rewrite Pos, O by discriminate. apply Once. unfold canonical; simpl; tauto. }
  destruct (get_series "Revenue" df) as [k Gk].
  { exact Rev. }
  { rewrite Pos, Cn by (simpl; tauto).
    pose proof (Once "Revenue") as B. unfold canonical in B. simpl in B.
    specialize (B ltac:(tauto)). lia. }
  destruct (empty_table_kpis_aux df k eq_refl Gk) as [s A].
  exists pre, df, (mkDashboard [] [] df s (render_kpis s)).
  split; [exact W|]. split; [exact Len|]. split; [exact Rows|].
  split; [exact N|]. split; [reflexivity|]. split; [|reflexivity].
  unfold run. rewrite N; cbn [bind].
  rewrite (options_empty "Region" df i eq_refl Gi); cbn [bind].
  rewrite (options_empty "Product" df j eq_refl Gj); cbn [bind].
  rewrite (filter_engine_empty df sel _ eq_refl Rev); cbn [bind].
  change (mkDataFrame (columns df) []) with df.
  rewrite A; cbn [bind]. reflexivity.
Qed.

(* ------------------------------------------------------------------ *)
(** ** The stable sort *)

Section SortFacts.

Variable A : Type.
Variable lt : A -> A -> bool.

Lemma insert_perm (x : A) (l : list A) : Permutation (insert lt x l) (x :: l).
Proof.
  induction l as [|y l IH]; simpl; [reflexivity|].
  destruct (lt y x); [|reflexivity].
  rewrite IH. apply perm_swap.
Qed.

Lemma sort_perm (l : list A) : Permutation (sort lt l) l.
Proof.
  induction l as [|x l IH]; simpl; [reflexivity|].
  rewrite insert_perm. now constructor.
Qed.

(** The order is used on a class [P] of elements only (the floats
    that are not NaN), where it is asymmetric and where "not below"
    is transitive. *)
Variable P : A -> Prop.
Hypothesis asym : forall a b, P a -> P b -> lt a b = true -> lt b a = false.
Hypothesis negtrans :
  forall a b c, P a -> P b -> P c ->
                lt a b = false -> lt b c = false -> lt a c = false.

Lemma irrefl (a : A) : P a -> lt a a = false.
Proof.
  intros H. destruct (lt a a) eqn:E; [|reflexivity].
  rewrite (asym a a H H E) in E. discriminate.
Qed.

Lemma equiv_refl (a : A) : P a -> equiv lt a a = true.
Proof. intros H. unfold equiv. now rewrite irrefl. Qed.

Lemma insert_sorted (x : A) (l : list A) :
  P x -> Forall P l ->
  StronglySorted (fun a b => lt b a = false) l ->
  StronglySorted (fun a b => lt b a = false) (insert lt x l).
Proof.
  intros Px. induction l as [|y l IH]; intros Pl S; simpl.
  - constructor; constructor.
  - inversion Pl as [|? ? Py Pl']; subst.
    inversion S as [|? ? S' F]; subst.
    destruct (lt y x) eqn:E.
    + constructor; [now apply IH|].
      apply (Permutation_Forall (x := x :: l)).
      * symmetry. apply insert_perm.
      * constructor; [now apply asym|exact F].
    + constructor; [exact S|].
      constructor; [exact E|].
      rewrite Forall_forall in *. intros z Hz.
      apply (negtrans z y x); auto.
Qed.

Lemma sort_sorted (l : list A) :
  Forall P l -> StronglySorted (fun a b => lt b a = false) (sort lt l).
Proof.
  induction l as [|x l IH]; intros Pl; simpl; [constructor|].
  inversion Pl; subst.
  apply insert_sorted; auto.
  apply (Permutation_Forall (x := l)); [symmetry; apply sort_perm|assumption].
Qed.

Lemma insert_stable (a x : A) (l : list A) :
  P a -> P x -> Forall P l ->
  filter (equiv lt a) (insert lt x l)
  = if equiv lt a x then x :: filter (equiv lt a) l else filter (equiv lt a) l.
Proof.
  intros Pa Px. induction l as [|y l IH]; intros Pl; simpl.
  - reflexivity.
  - inversion Pl as [|? ? Py Pl']; subst.
    destruct (lt y x) eqn:E; simpl.
    + rewrite IH by assumption.
      destruct (equiv lt a x) eqn:Ex; [|reflexivity].
      assert (Ey : equiv lt a y = false).
      { destruct (equiv lt a y) eqn:Ey; [|reflexivity].
        unfold equiv in Ex, Ey.
        apply andb_true_iff in Ex. destruct Ex as [X1 X2].
        apply andb_true_iff in Ey. destruct Ey as [Y1 Y2].
        apply negb_true_iff in X1, X2, Y1, Y2.
        rewrite (negtrans y a x Py Pa Px Y2 X1) in E. discriminate. }
      now rewrite Ey.
    + reflexivity.
Qed.

(** Elements that the order does not tell apart keep their order. *)
Lemma sort_stable (a : A) (l : list A) :
  P a -> Forall P l ->
  filter (equiv lt a) (sort lt l) = filter (equiv lt a) l.
Proof.
  intros Pa. induction l as [|x l IH]; intros Pl; simpl; [reflexivity|].
  inversion Pl; subst.
  rewrite insert_stable; auto.
  - now rewrite IH.
  - apply (Permutation_Forall (x := l)); [symmetry; apply sort_perm|assumption].
Qed.

Lemma descending_perm (l : list A) : Permutation (descending lt l) l.
Proof.
  unfold descending.
  rewrite <- Permutation_rev, sort_perm, <- Permutation_rev. reflexivity.
Qed.

Lemma strongly_sorted_snoc (R : A -> A -> Prop) (l : list A) (x : A) :
  StronglySorted R l -> Forall (fun a => R a x) l ->
  StronglySorted R (l ++ [x]).
Proof.
  induction l as [|y l IH]; intros S F; simpl.
  - constructor; constructor.
  - inversion S; subst. inversion F; subst.
    constructor; [now apply IH|].
    apply Forall_app. split; [assumption|]. now constructor.
Qed.

Lemma strongly_sorted_rev (R : A -> A -> Prop) (l : list A) :
  StronglySorted R l -> StronglySorted (fun a b => R b a) (rev l).
Proof.
  induction 1 as [|x l S IH F]; simpl; [constructor|].
  apply strongly_sorted_snoc; [exact IH|].
  apply Forall_rev. exact F.
Qed.

Lemma descending_sorted (l : list A) :
  Forall P l ->
  StronglySorted (fun a b => lt a b = false) (descending lt l).
Proof.
  intros Pl. unfold descending.
  apply (strongly_sorted_rev (fun a b => lt b a = false)).
  apply sort_sorted. now apply Forall_rev.
Qed.

Lemma descending_stable (a : A) (l : list A) :
  P a -> Forall P l ->
  filter (equiv lt a) (descending lt l) = filter (equiv lt a) l.
Proof.
  intros Pa Pl. unfold descending.
  rewrite filter_rev, sort_stable by (auto using Forall_rev).
  now rewrite filter_rev, rev_involutive.
Qed.

Lemma filter_head_split (f : A -> bool) (l : list A) (h : A) (t : list A) :
  filter f l = h :: t ->
  exists l1 l2, l = l1 ++ h :: l2
                /\ (forall b, In b l1 -> f b = false)
                /\ filter f l2 = t.
Proof.
  induction l as [|x l IH]; simpl; [discriminate|].
  destruct (f x) eqn:E; intros H.
  - injection H as -> <-. exists [], l. repeat split. intros b [].
  - destruct (IH H) as (l1 & l2 & -> & F & T).
    exists (x :: l1), l2. repeat split; auto.
    intros b [<-|Hb]; auto.
Qed.

(** The head of the descending order: nothing is above it, and in the
    original list everything in front of it is strictly below it. *)
Lemma descending_head (l : list A) (h : A) (t : list A) :
  Forall P l ->
  descending lt l = h :: t ->
  (forall b, In b l -> lt h b = false)
  /\ exists l1 l2, l = l1 ++ h :: l2
                   /\ forall b, In b l1 -> lt b h = true.
Proof.
  intros Pl D.
  pose proof (descending_perm l) as Pm. rewrite D in Pm.
  assert (Ph : P h).
  { rewrite Forall_forall in Pl. apply Pl.
    eapply Permutation_in; [exact Pm|]. now left. }
  pose proof (descending_sorted l Pl) as S. rewrite D in S.
  inversion S as [|? ? S' F]; subst.
  assert (M : forall b, In b l -> lt h b = false).
  { intros b Hb. eapply Permutation_in in Hb; [|exact (Permutation_sym Pm)].
    destruct Hb as [<-|Hb]; [now apply irrefl|].
    rewrite Forall_forall in F. now apply F. }
  split; [exact M|].
  pose proof (descending_stable h l Ph Pl) as St.
  rewrite D in St. simpl in St. rewrite (equiv_refl h Ph) in St.
  symmetry in St.
  destruct (filter_head_split _ _ _ _ St) as (l1 & l2 & E & F1 & _).
  exists l1, l2. split; [exact E|].
  intros b Hb. specialize (F1 b Hb). unfold equiv in F1.
  rewrite M in F1 by (rewrite E; apply in_or_app; now left).
  simpl in F1. now apply negb_false_iff in F1.
Qed.

End SortFacts.

(** ** The order of floats *)

Lemma compare_rank (x y : float64) :
  isnan x = false -> isnan y = false ->
  SFcompare x y = Some (lex (rank x) (rank y)).
Proof.
  destruct x as [sx|sx| |sx mx ex], y as [sy|sy| |sy my ey];
    try discriminate; intros _ _;
    try (destruct sx; reflexivity); try (destruct sy; reflexivity);
    try (destruct sx, sy; reflexivity).
  destruct sx, sy; try reflexivity; unfold SFcompare, rank, lex; cbn [fst snd].
  rewrite Z.compare_opp, (Z.compare_antisym ex ey).
  change (-1 ?= -1)%Z with Eq. cbv iota.
  destruct (ex ?= ey)%Z; reflexivity.
Qed.

Lemma lex_asym (a b : Z * Z * Z) : lex a b = Lt -> lex b a <> Lt.
Proof.
  destruct a as [[a1 a2] a3], b as [[b1 b2] b3]; unfold lex; cbn [fst snd].
  destruct (Z.compare_spec a1 b1), (Z.compare_spec b1 a1); try lia; try discriminate;
    destruct (Z.compare_spec a2 b2), (Z.compare_spec b2 a2); try lia; try discriminate;
    destruct (Z.compare_spec a3 b3), (Z.compare_spec b3 a3); try lia; discriminate.
Qed.

Lemma lex_negtrans (a b c : Z * Z * Z) :
  lex a b <> Lt -> lex b c <> Lt -> lex a c <> Lt.
Proof.
  destruct a as [[a1 a2] a3], b as [[b1 b2] b3], c as [[c1 c2] c3];
    unfold lex; cbn [fst snd].
  destruct (Z.compare_spec a1 b1), (Z.compare_spec b1 c1), (Z.compare_spec a1 c1);
    try lia; try congruence;
    destruct (Z.compare_spec a2 b2), (Z.compare_spec b2 c2), (Z.compare_spec a2 c2);
    try lia; try congruence;
    destruct (Z.compare_spec a3 b3), (Z.compare_spec b3 c3), (Z.compare_spec a3 c3);
    try lia; congruence.
Qed.

Lemma ltb_rank (x y : float64) :
  isnan x = false -> isnan y = false ->
  Float64.ltb x y = true <-> lex (rank x) (rank y) = Lt.
Proof.
  intros Hx Hy. unfold Float64.ltb, SFltb. rewrite compare_rank by assumption.
  destruct (lex (rank x) (rank y)); split; congruence.
Qed.

Lemma ltb_asym (x y : float64) :
  isnan x = false -> isnan y = false ->
  Float64.ltb x y = true -> Float64.ltb y x = false.
Proof.
  intros Hx Hy H. apply (ltb_rank x y Hx Hy) in H.
  destruct (Float64.ltb y x) eqn:E; [|reflexivity].
  apply (ltb_rank y x Hy Hx) in E. now apply lex_asym in H.
Qed.

Lemma ltb_negtrans (x y z : float64) :
  isnan x = false -> isnan y = false -> isnan z = false ->
  Float64.ltb x y = false -> Float64.ltb y z = false -> Float64.ltb x z = false.
Proof.
  intros Hx Hy Hz A B.
  destruct (Float64.ltb x z) eqn:E; [|reflexivity].
  apply (ltb_rank x z Hx Hz) in E.
  exfalso. apply (lex_negtrans (rank x) (rank y) (rank z)); auto.
  - intros K. apply (ltb_rank x y Hx Hy) in K. congruence.
  - intros K. apply (ltb_rank y z Hy Hz) in K. congruence.
Qed.

Lemma ltb_nan_r (x y : float64) : isnan y = true -> Float64.ltb x y = false.
Proof. destruct y; try discriminate. now destruct x. Qed.

Lemma value_ltb_asym (a b : cell * float64) :
  summed a -> summed b -> value_ltb a b = true -> value_ltb b a = false.
Proof. unfold summed, value_ltb. apply ltb_asym. Qed.

Lemma value_ltb_negtrans (a b c : cell * float64) :
  summed a -> summed b -> summed c ->
  value_ltb a b = false -> value_ltb b c = false -> value_ltb a c = false.
Proof. unfold summed, value_ltb. apply ltb_negtrans. Qed.

(** ** Keys: [cell_eqb] and [unique] *)

Lemma lex_eq (a b : Z * Z * Z) : lex a b = Eq <-> a = b.
Proof.
  destruct a as [[a1 a2] a3], b as [[b1 b2] b3]; unfold lex; cbn [fst snd].
  destruct (Z.compare_spec a1 b1); [|split; [discriminate|intros Q; inversion Q; lia]..].
  destruct (Z.compare_spec a2 b2); [|split; [discriminate|intros Q; inversion Q; lia]..].
  destruct (Z.compare_spec a3 b3); [|split; [discriminate|intros Q; inversion Q; lia]..].
  subst. tauto.
Qed.

Lemma eqb_rank (x y : float64) :
  Float64.eqb x y = true <-> isnan x = false /\ isnan y = false /\ rank x = rank y.
Proof.
  destruct (isnan x) eqn:Hx.
  { destruct x; try discriminate. split; [discriminate|intros (H & _); discriminate]. }
  destruct (isnan y) eqn:Hy.
  { destruct y; try discriminate.
    split; [destruct x; discriminate|intros (_ & H & _); discriminate]. }
  unfold Float64.eqb, SFeqb. rewrite compare_rank by assumption.
  rewrite <- lex_eq.
  destruct (lex (rank x) (rank y)); split; try tauto; try discriminate;
    intros (_ & _ & H); discriminate.
Qed.

Lemma cell_eqb_refl (c : cell) : notna c = true -> cell_eqb c c = true.
Proof.
  destruct c; simpl; try discriminate; intros H.
  - apply eqb_rank. unfold notna in H. simpl in H.
    apply negb_true_iff in H. auto.
  - apply String.eqb_refl.
  - apply Z.eqb_refl.
Qed.

Lemma cell_eqb_sym (a b : cell) : cell_eqb a b = cell_eqb b a.
Proof.
  destruct a, b; simpl; try reflexivity.
  - destruct (Float64.eqb x x0) eqn:E, (Float64.eqb x0 x) eqn:E'; try reflexivity.
    + apply eqb_rank in E. destruct E as (A & B & C).
      assert (K : Float64.eqb x0 x = true) by (apply eqb_rank; auto).
      congruence.
    + apply eqb_rank in E'. destruct E' as (A & B & C).
      assert (K : Float64.eqb x x0 = true) by (apply eqb_rank; auto).
      congruence.
  - apply String.eqb_sym.
  - apply Z.eqb_sym.
Qed.

Lemma cell_eqb_trans (a b c : cell) :
  cell_eqb a b = true -> cell_eqb b c = true -> cell_eqb a c = true.
Proof.
  destruct a, b; simpl; try discriminate; destruct c; simpl; try discriminate; auto.
  - intros H K. apply eqb_rank in H, K. apply eqb_rank.
    destruct H as (A & B & C), K as (D & E & F). repeat split; congruence.
  - intros H K. apply String.eqb_eq in H, K. subst. apply String.eqb_refl.
  - intros H K. apply Z.eqb_eq in H, K. subst. apply Z.eqb_refl.
Qed.

Lemma unique_incl (l : list cell) (c : cell) : In c (unique l) -> In c l.
Proof.
  revert c; induction l as [|x l IH]; intros c; simpl; [tauto|].
  intros [->|H]; [now left|].
  apply filter_In in H. right. apply IH. tauto.
Qed.

(** Each non-null value has its key among the distinct values. *)
Lemma unique_covers (l : list cell) (c : cell) :
  Forall (fun x => notna x = true) l ->
  In c l -> exists k, In k (unique l) /\ cell_eqb c k = true.
Proof.
  induction l as [|x l IH]; intros F H; [destruct H|].
  inversion F as [|? ? Nx F']; subst. simpl.
  destruct H as [->|H].
  - exists c. split; [now left|now apply cell_eqb_refl].
  - destruct (IH F' H) as (k & Hk & E).
    destruct (cell_eqb k x) eqn:Ex.
    + exists x. split; [now left|]. eapply cell_eqb_trans; eauto.
    + exists k. split; [|exact E]. right. apply filter_In.
      split; [exact Hk|]. now rewrite Ex.
Qed.

(** The distinct values are pairwise different keys. *)
Lemma unique_distinct (l : list cell) :
  Forall (fun x => notna x = true) l ->
  NoDup (unique l)
  /\ forall a b, In a (unique l) -> In b (unique l) ->
                 cell_eqb a b = true -> a = b.
Proof.
  induction l as [|x l IH]; intros F; simpl.
  - split; [constructor|intros a b []].
  - inversion F as [|? ? Nx F']; subst.
    destruct (IH F') as (ND & Inj).
    split.
    + constructor.
      * intros H. apply filter_In in H. destruct H as [_ H].
        rewrite (cell_eqb_refl x Nx) in H. discriminate.
      * now apply NoDup_filter.
    + intros a b [<-|Ha] [<-|Hb] E; auto.
      * apply filter_In in Hb. destruct Hb as [_ Hb].
        rewrite cell_eqb_sym, E in Hb. discriminate.
      * apply filter_In in Ha. destruct Ha as [_ Ha].
        rewrite E in Ha. discriminate.
      * apply filter_In in Ha, Hb. apply Inj; tauto.
Qed.

(** ** Grouped sums and their order *)

Lemma filter_partition_perm (A : Type) (f : A -> bool) (l : list A) :
  Permutation (filter f l ++ filter (fun x => negb (f x)) l) l.
Proof.
  induction l as [|x l IH]; simpl; [reflexivity|].
  destruct (f x); simpl.
  - now constructor.
  - rewrite <- Permutation_middle. now constructor.
Qed.

Lemma sort_values_perm (ascending : bool) (s : list (cell * float64)) :
  Permutation (sort_values ascending s) s.
Proof.
  unfold sort_values.
  eapply Permutation_trans;
    [|apply (filter_partition_perm _ (fun kv => negb (isnan (snd kv))) s)].
  apply Permutation_app.
  - destruct ascending.
    + apply sort_perm.
    + apply (descending_perm _ value_ltb).
  - erewrite filter_ext; [reflexivity|].
    intros kv. simpl. now rewrite negb_involutive.
Qed.

Lemma groupby_sum_keys (key val : string) (df : DataFrame) :
  map fst (groupby_sum key val df)
  = sort cell_ltb (unique (filter notna (getitem key df))).
Proof.
  unfold groupby_sum. rewrite map_map. simpl. apply map_id.
Qed.

Lemma groupby_sum_value (key val : string) (df : DataFrame) (k : cell) (v : float64) :
  In (k, v) (groupby_sum key val df) ->
  v = sum (map (fun r => loc df r val) (group key k df)).
Proof.
  unfold groupby_sum. rewrite in_map_iff.
  intros (k' & E & _). now inversion E.
Qed.

Lemma filter_split (A : Type) (f : A -> bool) (s : list A) :
  forall (l1 : list A) (h : A) (l2 : list A),
    filter f s = l1 ++ h :: l2 ->
    exists s1 s2, s = s1 ++ h :: s2 /\ filter f s1 = l1 /\ filter f s2 = l2.
Proof.
  induction s as [|x s IH]; intros l1 h l2 H; simpl in H.
  - destruct l1; discriminate.
  - destruct (f x) eqn:E.
    + destruct l1 as [|y l1]; simpl in H; injection H as -> H.
      * exists [], s. repeat split. exact H.
      * destruct (IH _ _ _ H) as (s1 & s2 & -> & F1 & F2).
        exists (y :: s1), s2. repeat split; auto. simpl. now rewrite E, F1.
    + destruct (IH _ _ _ H) as (s1 & s2 & -> & F1 & F2).
      exists (x :: s1), s2. repeat split; auto. simpl. now rewrite E.
Qed.

Lemma filter_summed (s : list (cell * float64)) :
  Forall summed (filter (fun kv => negb (isnan (snd kv))) s).
Proof.
  apply Forall_forall. intros kv H. apply filter_In in H.
  destruct H as [_ H]. now apply negb_true_iff in H.
Qed.

(** The head of a series sorted by descending value, when some value is
    not NaN: it is not NaN; in the unsorted series every entry in front
    of it is NaN or strictly smaller, and no entry behind it is larger. *)
Lemma sort_values_head (s : list (cell * float64)) (k : cell) (v : float64)
  (t : list (cell * float64)) :
  sort_values false s = (k, v) :: t ->
  (exists kv, In kv s /\ isnan (snd kv) = false) ->
  isnan v = false
  /\ exists s1 s2,
      s = s1 ++ (k, v) :: s2
      /\ (forall kv, In kv s1 ->
                     isnan (snd kv) = true \/ Float64.ltb (snd kv) v = true)
      /\ (forall kv, In kv s2 -> Float64.ltb v (snd kv) = false).
Proof.
  unfold sort_values.
  set (nn := filter (fun kv => negb (isnan (snd kv))) s).
  intros H (kv0 & In0 & N0).
  assert (Hnn : In kv0 nn).
  { apply filter_In. split; [exact In0|]. now rewrite N0. }
  pose proof (filter_summed s) as Pn. fold nn in Pn.
  destruct (descending value_ltb nn) as [|h d] eqn:D.
  { pose proof (descending_perm _ value_ltb nn) as Pm. rewrite D in Pm.
    apply Permutation_nil in Pm. rewrite Pm in Hnn. destruct Hnn. }
  simpl in H. injection H as -> _.
  destruct (descending_head _ value_ltb summed value_ltb_asym value_ltb_negtrans
              nn _ _ Pn D) as (M & l1 & l2 & E & L).
  assert (Sv : isnan v = false).
  { rewrite Forall_forall in Pn. apply (Pn (k, v)).
    rewrite E. apply in_or_app. right. now left. }
  split; [exact Sv|].
  destruct (filter_split _ _ s _ _ _ E) as (s1 & s2 & Es & F1 & F2).
  exists s1, s2. split; [exact Es|]. split.
  - intros kv Hkv. destruct (isnan (snd kv)) eqn:Nk; [now left|right].
    apply (L kv). rewrite <- F1. apply filter_In. split; [exact Hkv|].
    now rewrite Nk.
  - intros kv Hkv. destruct (isnan (snd kv)) eqn:Nk.
    + now apply ltb_nan_r.
    + apply (M kv). rewrite E. apply in_or_app. right. right.
      rewrite <- F2. apply filter_In. split; [exact Hkv|]. now rewrite Nk.
Qed.

Lemma strongly_sorted_app (A : Type) (R : A -> A -> Prop) (l1 l2 : list A) :
  StronglySorted R l1 -> StronglySorted R l2 ->
  (forall a b, In a l1 -> In b l2 -> R a b) ->
  StronglySorted R (l1 ++ l2).
Proof.
  induction l1 as [|x l1 IH]; intros S1 S2 C; simpl; [exact S2|].
  inversion S1 as [|? ? S1' F]; subst.
  constructor.
  - apply IH; auto. intros a b Ha Hb. apply C; [now right|exact Hb].
  - apply Forall_app. split; [exact F|].
    apply Forall_forall. intros b Hb. apply C; [now left|exact Hb].
Qed.

Lemma strongly_sorted_any (A : Type) (R : A -> A -> Prop) (l : list A) :
  (forall a b, In a l -> In b l -> R a b) -> StronglySorted R l.
Proof.
  induction l as [|x l IH]; intros H; constructor.
  - apply IH. intros a b Ha Hb. apply H; now right.
  - apply Forall_forall. intros b Hb. apply H; [now left|now right].
Qed.

(** A series sorted by descending value: no entry is followed by a
    larger one, and the NaN entries come last. *)
Lemma sort_values_descending (s : list (cell * float64)) :
  StronglySorted (fun a b => Float64.ltb (snd a) (snd b) = false)
                 (sort_values false s)
  /\ exists d n, sort_values false s = d ++ n
                 /\ Forall summed d
                 /\ Forall (fun kv => isnan (snd kv) = true) n.
Proof.
  unfold sort_values.
  set (nn := filter (fun kv => negb (isnan (snd kv))) s).
  set (na := filter (fun kv => isnan (snd kv)) s).
  pose proof (filter_summed s) as Pn. fold nn in Pn.
  assert (Pa : Forall (fun kv => isnan (snd kv) = true) na).
  { apply Forall_forall. intros kv H. apply filter_In in H. tauto. }
  split.
  - apply strongly_sorted_app.
    + exact (descending_sorted _ value_ltb summed value_ltb_asym
               value_ltb_negtrans nn Pn).
    + apply strongly_sorted_any. intros a b _ Hb.
      rewrite Forall_forall in Pa. apply ltb_nan_r. now apply Pa.
    + intros a b _ Hb.
      rewrite Forall_forall in Pa. apply ltb_nan_r. now apply Pa.
  - exists (descending value_ltb nn), na. repeat split; auto.
    eapply Permutation_Forall; [|exact Pn].
    symmetry. apply descending_perm.
Qed.

Lemma aggregate_inv (df : DataFrame) (s : AggregateSnapshot) :
  aggregate df = Ok s ->
  top_product_series s = sort_values false (groupby_sum "Product" "Revenue" df)
  /\ top_product s
     = match top_product_series s with kv :: _ => fst kv | [] => no_product end
  /\ top_product_revenue s
     = match top_product_series s with kv :: _ => snd kv | [] => zero end
  /\ rev_by_region s = sort_values false (groupby_sum "Region" "Revenue" df).
Proof.
  unfold aggregate. destruct (get "Revenue" df); try discriminate.
  intros H; injection H as <-. repeat split.
Qed.

Lemma groupby_sum_empty (key val : string) (df : DataFrame) :
  rows df = [] -> groupby_sum key val df = [].
Proof.
  intros E. unfold groupby_sum. now rewrite (getitem_empty key df E).
Qed.

(** ** C6: the top product *)



(** ** C7: revenue by region *)

Lemma notna_filtered (l : list cell) :
  Forall (fun x => notna x = true) (filter notna l).
Proof. apply Forall_forall. intros c H. apply filter_In in H. tauto. Qed.

(** C7.  The region series has one entry per distinct Region of the
    table: its keys are the distinct non-null Regions, pairwise
    different, and every row's Region is one of them; each value is the
    sum of Revenue over the rows of that Region; and the entries are in
    descending order of that sum (no entry is followed by a larger one,
    NaN sums last).  On the contributions (East,300), (West,100),
    (East,50) it is [(East,350), (West,100)]. *)
Theorem revenue_by_region_descending :
  (forall (df : DataFrame) (s : AggregateSnapshot),
      aggregate df = Ok s ->
      Permutation (map fst (rev_by_region s))
                  (unique (filter notna (getitem "Region" df)))
      /\ NoDup (map fst (rev_by_region s))
      /\ (forall a b, In a (map fst (rev_by_region s)) ->
                      In b (map fst (rev_by_region s)) ->
                      cell_eqb a b = true -> a = b)
      /\ (forall r, In r (rows df) -> notna (loc df r "Region") = true ->
            exists kv, In kv (rev_by_region s)
                       /\ cell_eqb (loc df r "Region") (fst kv) = true)
      /\ (forall k v, In (k, v) (rev_by_region s) ->
            v = sum (map (fun r => loc df r "Revenue") (group "Region" k df)))
      /\ StronglySorted (fun a b => Float64.ltb (snd a) (snd b) = false)
                        (rev_by_region s)
      /\ (exists d n, rev_by_region s = d ++ n
                      /\ Forall summed d
                      /\ Forall (fun kv => isnan (snd kv) = true) n))
  /\ option_map (fun d => rev_by_region (snapshot d))
                (Grouped.outcome Grouped.by_region)
     = Some [(CStr "East", of_Z 350); (CStr "West", of_Z 100)].
Proof.
  split; [|reflexivity].
  intros df s A.
  destruct (aggregate_inv df s A) as (_ & _ & _ & R).
  set (U := unique (filter notna (getitem "Region" df))).
  assert (Pk : Permutation (map fst (rev_by_region s)) U).
  { rewrite R.
    rewrite (Permutation_map fst (sort_values_perm false _)).
    rewrite groupby_sum_keys. apply sort_perm. }
  destruct (unique_distinct (filter notna (getitem "Region" df))
              (notna_filtered _)) as (ND & Inj).
  fold U in ND, Inj.
  split; [exact Pk|]. split; [|split; [|split; [|split; [|split]]]].
  - eapply Permutation_NoDup; [symmetry; exact Pk|exact ND].
  - intros a b Ha Hb. apply Inj; eapply Permutation_in; eauto.
  - intros r Hr Nr.
    destruct (unique_covers (filter notna (getitem "Region" df))
                (loc df r "Region") (notna_filtered _)) as (k & Hk & E).
    { apply filter_In. split; [|exact Nr].
      unfold getitem. apply in_map_iff. now exists r. }
    fold U in Hk.
    eapply Permutation_in in Hk; [|symmetry; exact Pk].
    apply in_map_iff in Hk. destruct Hk as (kv & <- & Hkv).
    now exists kv.
  - intros k v H. rewrite R in H.
    eapply Permutation_in in H; [|apply sort_values_perm].
    now apply groupby_sum_value in H.
  - rewrite R. apply sort_values_descending.
  - rewrite R. apply sort_values_descending.
Qed.

Lemma revenue_by_region_descending_witness :
  Permutation (map fst (rev_by_region sales_snapshot))
              (unique (filter notna (getitem "Region" sales_clean)))
  /\ NoDup (map fst (rev_by_region sales_snapshot))
  /\ (forall a b, In a (map fst (rev_by_region sales_snapshot)) ->
                  In b (map fst (rev_by_region sales_snapshot)) ->
                  cell_eqb a b = true -> a = b)
  /\ (forall r, In r (rows sales_clean) ->
                notna (loc sales_clean r "Region") = true ->
        exists kv, In kv (rev_by_region sales_snapshot)
                   /\ cell_eqb (loc sales_clean r "Region") (fst kv) = true)
  /\ (forall k v, In (k, v) (rev_by_region sales_snapshot) ->
        v = sum (map (fun r => loc sales_clean r "Revenue")
                     (group "Region" k sales_clean)))
  /\ StronglySorted (fun a b => Float64.ltb (snd a) (snd b) = false)
                    (rev_by_region sales_snapshot)
  /\ (exists d n, rev_by_region sales_snapshot = d ++ n
                  /\ Forall summed d
                  /\ Forall (fun kv => isnan (snd kv) = true) n).
Proof.
  apply (proj1 revenue_by_region_descending sales_clean sales_snapshot).
  vm_compute. reflexivity.
Defined.

(** ** C10: a witness and the case it leaves out *)

Lemma missing_column_drops_all_rows_witness :
  exists pre df d,
    @with_revenue typed_cells NoDate.raw = Ok pre
    /\ List.length (rows pre) = List.length (rows NoDate.raw)
    /\ (forall r, In r (rows pre) ->
          (positions "Date" (labels NoDate.raw) = [] -> loc pre r "Date" = CNull)
          /\ (positions "Units" (labels NoDate.raw) = [] ->
              loc pre r "Units" = CNum nan)
          /\ (positions "UnitPrice" (labels NoDate.raw) = [] ->
              loc pre r "UnitPrice" = CNum nan))
    /\ @normalize typed_cells NoDate.raw = Ok df
    /\ rows df = []
    /\ @run typed_cells NoDate.raw NoDate.everything = Ok d
    /\ rows (df_clean d) = [].
Proof.
  apply (@missing_column_drops_all_rows typed_cells NoDate.raw NoDate.everything).
  - intros name H. unfold canonical in H. simpl in H.
    destruct H as [<-|[<-|[<-|[<-|[<-|[<-|[]]]]]]]; vm_compute; lia.
  - discriminate.
  - discriminate.
  - left. reflexivity.
Defined.

(** C10 as stated fails: this table has a Product and a Region column
    and lacks Date and UnitPrice, and the Normalizer raises TypeError
    on it ([pd.to_numeric] is handed the two columns labelled Units). *)
Lemma missing_column_with_repeated_label_raises :
  positions "Product" (labels NoDate.units_twice) = [0%nat]
  /\ positions "Region" (labels NoDate.units_twice) = [1%nat]
  /\ positions "Date" (labels NoDate.units_twice) = []
  /\ positions "UnitPrice" (labels NoDate.units_twice) = []
  /\ @normalize typed_cells NoDate.units_twice = Raise TypeError
  /\ @run typed_cells NoDate.units_twice NoDate.everything = Raise TypeError.
Proof. repeat split. Qed.

(** ** The round trip *)

Lemma prepend_field (f g : string) (fs : list string) (rs : list (list string)) :
  prepend f ((g :: fs) :: rs) = ((f ++ g)%string :: fs) :: rs.
Proof.
  induction f as [|c f IH]; simpl; [reflexivity|]. now rewrite IH.
Qed.

Lemma append_assoc (a b c : string) : ((a ++ b) ++ c = a ++ (b ++ c))%string.
Proof. induction a as [|x a IH]; simpl; congruence. Qed.

Lemma append_empty_r (a : string) : (a ++ EmptyString = a)%string.
Proof. induction a as [|x a IH]; simpl; congruence. Qed.

Lemma scan_close (d : ascii) (t : string) :
  (d =? dquote)%char = false ->
  scan true (String dquote (String d t)) = scan false (String d t).
Proof. intros D. simpl. now rewrite D. Qed.

Lemma scan_doubled (t : string) :
  scan true (String dquote (String dquote t))
  = option_map (push dquote) (scan true t).
Proof. reflexivity. Qed.

Lemma scan_inside (c : ascii) (t : string) :
  (c =? dquote)%char = false ->
  scan true (String c t) = option_map (push c) (scan true t).
Proof. intros D. simpl. now rewrite D. Qed.

Lemma scan_open (t : string) :
  scan false (String dquote t) = scan true t.
Proof. reflexivity. Qed.

Lemma scan_other (c : ascii) (t : string) :
  special c = false ->
  scan false (String c t) = option_map (push c) (scan false t).
Proof.
  intros S. unfold special in S.
  repeat (apply orb_false_iff in S; destruct S as [S ?]).
  simpl. now rewrite H0, S, H1.
Qed.

Lemma option_map_prepend (c : ascii) (f : string) (o : option (list (list string))) :
  option_map (push c) (option_map (prepend f) o)
  = option_map (prepend (String c f)) o.
Proof. now destruct o. Qed.

Lemma scan_plain (f t : string) :
  needs_quotes f = false ->
  scan false (f ++ t) = option_map (prepend f) (scan false t).
Proof.
  induction f as [|c f IH]; intros N.
  - cbn [append]. now destruct (scan false t).
  - simpl in N. apply orb_false_iff in N. destruct N as [S N].
    cbn [append]. rewrite scan_other by assumption.
    rewrite IH by assumption. apply option_map_prepend.
Qed.

Lemma scan_quoted (f : string) (d : ascii) (t : string) :
  (d =? dquote)%char = false ->
  scan true (doubled f ++ String dquote (String d t))
  = option_map (prepend f) (scan false (String d t)).
Proof.
  intros D. induction f as [|c f IH].
  - cbn [doubled append]. rewrite scan_close by assumption.
    now destruct (scan false (String d t)).
  - cbn [doubled]. destruct (c =? dquote)%char eqn:E.
    + apply Ascii.eqb_eq in E. subst c.
      cbn [append]. rewrite scan_doubled, IH. apply option_map_prepend.
    + cbn [append]. rewrite scan_inside by assumption.
      rewrite IH. apply option_map_prepend.
Qed.

(** A written field is read back in front of what follows it. *)
Lemma scan_field (f : string) (d : ascii) (t : string) :
  (d =? dquote)%char = false ->
  scan false (quote f ++ String d t)
  = option_map (prepend f) (scan false (String d t)).
Proof.
  intros D. unfold quote. destruct (needs_quotes f) eqn:N.
  - cbn [append]. rewrite scan_open.
    rewrite append_assoc. cbn [append].
    now apply scan_quoted.
  - now apply scan_plain.
Qed.

Lemma scan_newline (t : string) :
  scan false (String newline t) = option_map next_record (scan false t).
Proof. reflexivity. Qed.

Lemma scan_comma (t : string) :
  scan false (String comma t) = option_map next_field (scan false t).
Proof. reflexivity. Qed.

Lemma scan_join (fields : list string) (t : string) (recs : list (list string)) :
  fields <> [] ->
  scan false t = Some recs ->
  scan false (join (map quote fields) ++ String newline t)
  = Some (fields :: recs).
Proof.
  intros NE T. induction fields as [|f fs IH]; [congruence|].
  destruct fs as [|g fs].
  - cbn [map join]. rewrite scan_field by reflexivity.
    rewrite scan_newline, T. unfold next_record. cbn [option_map].
    rewrite prepend_field. now rewrite append_empty_r.
  - change (join (map quote (f :: g :: fs)))
      with (quote f ++ String comma (join (map quote (g :: fs))))%string.
    rewrite append_assoc. cbn [append].
    rewrite scan_field by reflexivity.
    rewrite scan_comma, IH by discriminate.
    unfold next_field. cbn [option_map]. rewrite prepend_field.
    now rewrite append_empty_r.
Qed.

Lemma scan_line (fields : list string) (t : string) (recs : list (list string)) :
  fields <> [] ->
  scan false t = Some recs ->
  scan false (line fields ++ t) = Some (fields :: recs).
Proof.
  intros NE T. unfold line.
  rewrite append_assoc. cbn [append].
  destruct fields as [|f fs]; [congruence|].
  destruct f as [|c f], fs as [|g fs];
    try (apply scan_join; [discriminate|exact T]).
  cbn [append]. rewrite scan_open, scan_close by reflexivity.
  rewrite scan_newline, T. reflexivity.
Qed.

Lemma scan_lines (records : list (list string)) :
  Forall (fun r => r <> []) records ->
  scan false (lines records) = Some records.
Proof.
  induction records as [|r rs IH]; intros F; [reflexivity|].
  inversion F; subst. cbn [lines].
  apply scan_line; auto.
Qed.

Lemma record_nonempty {pr : Printer} (df : DataFrame) (r : list cell) :
  columns df <> [] -> record df r <> [].
Proof.
  unfold record. destruct (columns df) as [|c cs]; [congruence|].
  discriminate.
Qed.

Lemma positions_columns_nonempty (name : string) (df : DataFrame) :
  positions name df <> [] -> columns df <> [].
Proof.
  unfold positions. destruct (columns df); [simpl; congruence|discriminate].
Qed.

(** The export of a table with at least one column reads back as its
    header and the texts of its rows. *)
Lemma to_csv_read_back {pr : Printer} (df : DataFrame) :
  columns df <> [] ->
  read_csv (to_csv df) = Some (columns df :: map (record df) (rows df)).
Proof.
  intros NE. unfold read_csv, to_csv. apply scan_lines.
  constructor; [exact NE|].
  apply Forall_forall. intros f Hf. apply in_map_iff in Hf.
  destruct Hf as (r & <- & _). now apply record_nonempty.
Qed.

(** ** C8: the round trip *)




(* ------------------------------------------------------------------ *)
(** * Further properties of the script *)

(* ------------------------------------------------------------------ *)
(** * Further properties of the script *)

(** ** The loader *)

(** X1.  A failed load always stops the script with the loader's
    message, also when the exception has no text: the message is never
    empty, so [if error:] catches it and [df.columns] is never asked of
    [None].  After a successful load the script is the run of the
    table. *)
Theorem failed_load_stops {pd : Coercions} (sel : FilterSelection) :
  (forall df, script (Loaded df) sel = (d <- run df sel ;; Ok (Rendered d)))
  /\ script FileNotFound sel
     = Ok (Stopped "Error: data.xlsx not found. Please ensure the file exists in the project folder.")
  /\ (forall text,
        script (Failed text) sel
        = Ok (Stopped ("Error loading file: " ++ text)%string))
  /\ (forall file, fst (load_data file) = None ->
                   exists message, message <> EmptyString
                                   /\ script file sel = Ok (Stopped message)).
Proof.
  repeat split.
  intros [df| |text]; simpl; intros H; [discriminate| |];
    eexists; (split; [|reflexivity]); discriminate.
Qed.

(** ** Column names *)

Lemma rename_map_cases (c : string) :
  (In (lower c) canonical_words
   /\ In (rename_map c) ["Date"; "Units"; "UnitPrice"; "Product"; "Region"])
  \/ (~ In (lower c) canonical_words /\ rename_map c = c).
Proof.
  unfold rename_map, canonical_words. cbv zeta.
  destruct (lower c =? "date") eqn:E1;
    [apply String.eqb_eq in E1; rewrite E1; left; simpl; tauto|].
  destruct (lower c =? "units") eqn:E2;
    [apply String.eqb_eq in E2; rewrite E2; left; simpl; tauto|].
  destruct (lower c =? "unitprice") eqn:E3;
    [apply String.eqb_eq in E3; rewrite E3; left; simpl; tauto|].
  destruct (lower c =? "unit price") eqn:E4;
    [apply String.eqb_eq in E4; rewrite E4; left; simpl; tauto|].
  destruct (lower c =? "product") eqn:E5;
    [apply String.eqb_eq in E5; rewrite E5; left; simpl; tauto|].
  destruct (lower c =? "region") eqn:E6;
    [apply String.eqb_eq in E6; rewrite E6; left; simpl; tauto|].
  right. split; [|reflexivity].
  apply String.eqb_neq in E1, E2, E3, E4, E5, E6.
  simpl. intuition congruence.
Qed.

(** X2.  Renaming is idempotent, and after it a label whose lowercase
    form is one of the recognised words has the canonical spelling: no
    variant such as DATE or unit price is left among the labels. *)
Theorem rename_map_normal_form (c : string) :
  rename_map (rename_map c) = rename_map c
  /\ (In (lower (rename_map c)) canonical_words ->
      In (rename_map c) ["Date"; "Units"; "UnitPrice"; "Product"; "Region"]).
Proof.
  destruct (rename_map_cases c) as [[_ H]|[N E]].
  - split; [|intros _; exact H].
    simpl in H. decompose [or] H; try contradiction;
      match goal with K : _ = rename_map c |- _ => rewrite <- K end; reflexivity.
  - rewrite E. split; [exact E|]. intros H. contradiction.
Qed.

(** X3.  Renaming does not look at the case of a name: two names with
    the same lowercase form, one of which is renamed to a canonical
    label, are renamed to the same label. *)
Theorem rename_map_ignores_case (a b : string) :
  lower a = lower b ->
  In (rename_map a) ["Date"; "Units"; "UnitPrice"; "Product"; "Region"] ->
  rename_map b = rename_map a.
Proof.
  intros L H.
  destruct (rename_map_cases a) as [[W _]|[N E]].
  - rewrite L in W. unfold rename_map. cbv zeta. rewrite L.
    destruct (lower b =? "date") eqn:E1; [reflexivity|].
    destruct (lower b =? "units") eqn:E2; [reflexivity|].
    destruct (lower b =? "unitprice") eqn:E3; [reflexivity|].
    destruct (lower b =? "unit price") eqn:E4; [reflexivity|].
    destruct (lower b =? "product") eqn:E5; [reflexivity|].
    destruct (lower b =? "region") eqn:E6; [reflexivity|].
    exfalso. apply String.eqb_neq in E1, E2, E3, E4, E5, E6.
    unfold canonical_words in W. simpl in W. intuition congruence.
  - exfalso. rewrite E in H. apply N.
    simpl in H. decompose [or] H; try contradiction; subst a;
      unfold canonical_words; simpl; tauto.
Qed.

Lemma rename_map_ignores_case_witness :
  rename_map "UNIT Price" = rename_map "unit price".
Proof.
  apply (rename_map_ignores_case "unit price" "UNIT Price").
  - reflexivity.
  - simpl. tauto.
Defined.

(** ** [str.strip] *)

Lemma without_prefix_app (p s s' : string) :
  without_prefix p s = Some s' <-> s = (p ++ s')%string.
Proof.
  revert s; induction p as [|a p IH]; intros s; simpl.
  - split; [intros H; now injection H|intros ->; reflexivity].
  - destruct s as [|b s]; [split; discriminate|].
    destruct (a =? b)%char eqn:E.
    + apply Ascii.eqb_eq in E. subst b. rewrite IH.
      split; [intros ->; reflexivity|intros H; now injection H].
    + apply Ascii.eqb_neq in E. split; [discriminate|].
      intros H; injection H as H _. congruence.
Qed.

Lemma without_first_some (ps : list string) (s s' : string) :
  without_first ps s = Some s' ->
  exists p, In p ps /\ s = (p ++ s')%string.
Proof.
  induction ps as [|p ps IH]; simpl; [discriminate|].
  destruct (without_prefix p s) as [t|] eqn:E.
  - intros H; injection H as ->. exists p. split; [now left|].
    now apply without_prefix_app.
  - intros H. destruct (IH H) as (q & Hq & Eq). exists q. split; [now right|exact Eq].
Qed.

Lemma without_first_none (ps : list string) (s : string) :
  without_first ps s = None ->
  forall p s', In p ps -> s <> (p ++ s')%string.
Proof.
  induction ps as [|q ps IH]; simpl; intros H p s' Hp; [destruct Hp|].
  destruct (without_prefix q s) as [t|] eqn:E; [discriminate|].
  destruct Hp as [->|Hp].
  - intros K. apply without_prefix_app in K. congruence.
  - now apply IH.
Qed.

Lemma without_first_app (ps : list string) (s w : string) :
  without_first ps (s ++ w) = None -> without_first ps s = None.
Proof.
  intros H. destruct (without_first ps s) as [t|] eqn:E; [|reflexivity].
  destruct (without_first_some _ _ _ E) as (p & Hp & ->).
  exfalso. apply (without_first_none _ _ H p (t ++ w)%string Hp).
  apply append_assoc.
Qed.

Lemma length_append (a b : string) :
  String.length (a ++ b) = (String.length a + String.length b)%nat.
Proof. induction a; simpl; congruence. Qed.

Lemma spaces_app (ps : list string) (a b : string) :
  spaces ps a -> spaces ps b -> spaces ps (a ++ b).
Proof.
  induction 1 as [|p w Hp Hw IH]; intros Hb; simpl; [exact Hb|].
  rewrite append_assoc. constructor; auto.
Qed.

Section Stripping.

Variable ps : list string.
Hypothesis nonempty : forall p, In p ps -> p <> EmptyString.

Lemma lstrip_of_split (n : nat) (s : string) :
  exists w, spaces ps w /\ s = (w ++ lstrip_of ps n s)%string.
Proof.
  revert s; induction n as [|n IH]; intros s; simpl.
  - exists EmptyString. split; [constructor|reflexivity].
  - destruct (without_first ps s) as [t|] eqn:E.
    + destruct (without_first_some _ _ _ E) as (p & Hp & ->).
      destruct (IH t) as (w & Hw & Et).
      exists (p ++ w)%string. split; [now constructor|].
      rewrite append_assoc. now rewrite <- Et.
    + exists EmptyString. split; [constructor|reflexivity].
Qed.

Lemma lstrip_of_done (n : nat) (s : string) :
  (String.length s <= n)%nat -> without_first ps (lstrip_of ps n s) = None.
Proof.
  revert s; induction n as [|n IH]; intros s L; simpl.
  - destruct s; [|simpl in L; lia].
    destruct (without_first ps EmptyString) as [t|] eqn:E; [|reflexivity].
    destruct (without_first_some _ _ _ E) as (p & Hp & K).
    destruct p; [now apply nonempty in Hp|discriminate].
  - destruct (without_first ps s) as [t|] eqn:E; [|exact E].
    apply IH. destruct (without_first_some _ _ _ E) as (p & Hp & ->).
    rewrite length_append in L.
    destruct p; [now apply nonempty in Hp|simpl in L; lia].
Qed.

Lemma lstrip_of_fixed (n : nat) (s : string) :
  without_first ps s = None -> lstrip_of ps n s = s.
Proof. intros H. destruct n; simpl; [reflexivity|now rewrite H]. Qed.

End Stripping.

Lemma reverse_involutive (s : string) : reverse (reverse s) = s.
Proof.
  unfold reverse. rewrite list_ascii_of_string_of_list_ascii, rev_involutive.
  apply string_of_list_ascii_of_string.
Qed.

Lemma list_ascii_of_string_app (a b : string) :
  list_ascii_of_string (a ++ b)
  = list_ascii_of_string a ++ list_ascii_of_string b.
Proof. induction a; simpl; congruence. Qed.

Lemma string_of_list_ascii_app (a b : list ascii) :
  string_of_list_ascii (a ++ b)
  = (string_of_list_ascii a ++ string_of_list_ascii b)%string.
Proof. induction a; simpl; congruence. Qed.

Lemma reverse_app (a b : string) :
  reverse (a ++ b) = (reverse b ++ reverse a)%string.
Proof.
  unfold reverse.
  now rewrite list_ascii_of_string_app, rev_app_distr, string_of_list_ascii_app.
Qed.

Lemma reverse_length (s : string) : String.length (reverse s) = String.length s.
Proof.
  unfold reverse.
  assert (L : forall l, String.length (string_of_list_ascii l) = List.length l)
    by (induction l; simpl; congruence).
  assert (M : forall t, List.length (list_ascii_of_string t) = String.length t)
    by (induction t; simpl; congruence).
  now rewrite L, length_rev, M.
Qed.

Lemma spaces_reverse (ps : list string) (w : string) :
  spaces (map reverse ps) w -> spaces ps (reverse w).
Proof.
  induction 1 as [|p w Hp Hw IH]; [constructor|].
  rewrite reverse_app. apply spaces_app; [exact IH|].
  apply in_map_iff in Hp. destruct Hp as (q & <- & Hq).
  rewrite reverse_involutive.
  rewrite <- (append_empty_r q). constructor; [exact Hq|constructor].
Qed.

Lemma whitespace_nonempty (p : string) : In p whitespace -> p <> EmptyString.
Proof.
  assert (F : Forall (fun p => p <> EmptyString) whitespace)
    by (repeat constructor; discriminate).
  rewrite Forall_forall in F. apply F.
Qed.

Lemma reversed_whitespace_nonempty (p : string) :
  In p (map reverse whitespace) -> p <> EmptyString.
Proof.
  assert (F : Forall (fun p => p <> EmptyString) (map reverse whitespace))
    by (repeat constructor; discriminate).
  rewrite Forall_forall in F. apply F.
Qed.

(** X4.  [strip] removes whitespace and nothing else, from both ends
    and all of it: the name is the stripped name between two runs of
    whitespace characters, the stripped name neither starts nor ends
    with a whitespace character, and stripping again changes nothing. *)
Theorem strip_spec (s : string) :
  (exists w1 w2, spaces whitespace w1 /\ spaces whitespace w2
                 /\ s = (w1 ++ strip s ++ w2)%string)
  /\ without_first whitespace (strip s) = None
  /\ without_first (map reverse whitespace) (reverse (strip s)) = None
  /\ strip (strip s) = strip s.
Proof.
  destruct (lstrip_of_split whitespace (String.length s) s) as (w1 & S1 & E1).
  fold (lstrip s) in E1.
  destruct (lstrip_of_split (map reverse whitespace)
              (String.length (lstrip s)) (reverse (lstrip s))) as (v & Sv & Ev).
  assert (E2 : lstrip s = (strip s ++ reverse v)%string).
  { unfold strip, rstrip.
    rewrite <- reverse_app, <- Ev. now rewrite reverse_involutive. }
  assert (T : without_first (map reverse whitespace) (reverse (strip s)) = None).
  { unfold strip, rstrip. rewrite reverse_involutive.
    apply lstrip_of_done; [exact reversed_whitespace_nonempty|].
    now rewrite reverse_length. }
  assert (L : without_first whitespace (strip s) = None).
  { apply without_first_app with (w := reverse v). rewrite <- E2.
    apply lstrip_of_done; [exact whitespace_nonempty|]. apply le_n. }
  split; [|split; [exact L|split; [exact T|]]].
  - exists w1, (reverse v). split; [exact S1|]. split.
    + now apply spaces_reverse.
    + rewrite <- E2. exact E1.
  - unfold strip at 1. unfold lstrip. rewrite lstrip_of_fixed by exact L.
    unfold rstrip. rewrite lstrip_of_fixed by exact T.
    apply reverse_involutive.
Qed.

(** ** The Normalizer: when it raises, its columns, what it leaves alone *)

Lemma get_frame (name : string) (df : DataFrame) :
  (2 <= List.length (positions name df))%nat ->
  exists i j more, get name df = Frame i j more.
Proof.
  unfold get. destruct (positions name df) as [|i [|j more]]; simpl; intros H;
    try lia. now exists i, j, more.
Qed.

Section NormalizerOutcome.

Context {pd : Coercions}.

Lemma coerce_date_raises (df : DataFrame) :
  (2 <= List.length (positions "Date" df))%nat ->
  coerce_date df = Raise ValueError.
Proof.
  intros H. destruct (get_frame _ _ H) as (i & j & more & G).
  unfold coerce_date. now rewrite G.
Qed.

Lemma coerce_number_raises (name : string) (df : DataFrame) :
  (2 <= List.length (positions name df))%nat ->
  coerce_number name df = Raise TypeError.
Proof.
  intros H. destruct (get_frame _ _ H) as (i & j & more & G).
  unfold coerce_number. now rewrite G.
Qed.

(** X5.  The Normalizer raises in these cases and in no other: with
    two columns labelled Date, ValueError; otherwise with two columns
    labelled Units or two labelled UnitPrice, TypeError; otherwise
    without a Product or without a Region column, KeyError.  In every
    other case it returns a table. *)
Theorem normalize_outcome (raw : DataFrame) :
  ((2 <= List.length (positions "Date" (labels raw)))%nat ->
   normalize raw = Raise ValueError)
  /\ ((List.length (positions "Date" (labels raw)) <= 1)%nat ->
      (2 <= List.length (positions "Units" (labels raw)))%nat
      \/ (2 <= List.length (positions "UnitPrice" (labels raw)))%nat ->
      normalize raw = Raise TypeError)
  /\ ((List.length (positions "Date" (labels raw)) <= 1)%nat ->
      (List.length (positions "Units" (labels raw)) <= 1)%nat ->
      (List.length (positions "UnitPrice" (labels raw)) <= 1)%nat ->
      positions "Product" (labels raw) = []
      \/ positions "Region" (labels raw) = [] ->
      normalize raw = Raise KeyError)
  /\ ((List.length (positions "Date" (labels raw)) <= 1)%nat ->
      (List.length (positions "Units" (labels raw)) <= 1)%nat ->
      (List.length (positions "UnitPrice" (labels raw)) <= 1)%nat ->
      positions "Product" (labels raw) <> [] ->
      positions "Region" (labels raw) <> [] ->
      exists df, normalize raw = Ok df).
Proof.
  split; [|split; [|split]].
  - intros H. unfold normalize, with_revenue. fold (labels raw).
    now rewrite coerce_date_raises.
  - intros Hd H. unfold normalize, with_revenue. fold (labels raw).
    destruct (coerce_date_ok _ Hd) as (dates & -> & _); cbn [bind].
    destruct (Nat.le_gt_cases 2 (List.length (positions "Units" (labels raw))))
      as [Hu|Hu].
    + rewrite coerce_number_raises; [reflexivity|].
      now rewrite set_column_other by discriminate.
    + destruct H as [H|H]; [lia|].
      destruct (coerce_number_ok "Units" (set_column "Date" dates (labels raw)))
        as (units & -> & _); cbn [bind].
      { rewrite set_column_other by discriminate. lia. }
      rewrite coerce_number_raises; [reflexivity|].
      now rewrite !set_column_other by discriminate.
  - intros Hd Hu Hp Missing.
    destruct (with_revenue_ok raw Hd Hu Hp) as [pre W].
    destruct (with_revenue_positions _ _ W) as (O & _ & _).
    unfold normalize, dropna. rewrite W; cbn [bind].
    rewrite subset_positions_raise; [reflexivity|].
    destruct Missing as [M|M].
    + exists "Product". split; [unfold required; simpl; tauto|].
      now rewrite O by discriminate.
    + exists "Region". split; [unfold required; simpl; tauto|].
      now rewrite O by discriminate.
  - intros Hd Hu Hp HP HR.
    destruct (with_revenue_ok raw Hd Hu Hp) as [pre W].
    destruct (with_revenue_positions _ _ W) as (O & Cn & _).
    assert (K : forall n, In n ["Date"; "Units"; "UnitPrice"; "Revenue"] ->
                          positions n pre <> []).
    { intros n Hin E. specialize (Cn n Hin). rewrite E in Cn.
      change (List.length (@nil nat)) with 0%nat in Cn. lia. }
    destruct (subset_positions_ok required pre) as [idx S].
    { intros name Hn. unfold required in Hn. simpl in Hn.
      destruct Hn as [<-|[<-|[<-|[<-|[<-|[]]]]]];
        try (apply K; simpl; tauto);
        rewrite O by discriminate; assumption. }
    unfold normalize, dropna. rewrite W; cbn [bind]. rewrite S; cbn [bind].
    eexists; reflexivity.
Qed.

End NormalizerOutcome.

Lemma existsb_label_app (name other : string) (cols : list string) :
  other <> name ->
  existsb (fun c => c =? name) (cols ++ [other])
  = existsb (fun c => c =? name) cols.
Proof.
  intros N. rewrite existsb_app. simpl.
  apply String.eqb_neq in N. rewrite N. now rewrite !orb_false_r.
Qed.

Lemma add_label_other (name other : string) (cols : list string) :
  other <> name ->
  existsb (fun c => c =? name) (add_label other cols)
  = existsb (fun c => c =? name) cols.
Proof.
  intros N. unfold add_label.
  destruct (existsb (fun c => c =? other) cols); [reflexivity|].
  now apply existsb_label_app.
Qed.

Section NormalizerColumns.

Context {pd : Coercions}.

Lemma with_revenue_columns (raw pre : DataFrame) :
  with_revenue raw = Ok pre ->
  columns pre
  = add_label "Revenue"
      (add_label "UnitPrice"
         (add_label "Units" (add_label "Date" (columns (labels raw))))).
Proof.
  unfold with_revenue. fold (labels raw).
  destruct (coerce_date _); cbn [bind]; [|discriminate].
  destruct (coerce_number "Units" _); cbn [bind]; [|discriminate].
  destruct (coerce_number "UnitPrice" _); cbn [bind]; [|discriminate].
  intros H; injection H as <-. reflexivity.
Qed.

(** X6.  The columns of the normalised table are the renamed source
    columns, in their order, followed by those of Date, Units,
    UnitPrice and Revenue that the source lacks, in this order; so the
    column count shown in the preview is the source's plus the number
    of those four labels that were absent. *)
Theorem normalize_columns (raw df : DataFrame) :
  normalize raw = Ok df ->
  columns df
  = columns (labels raw)
    ++ filter (fun name =>
                 negb (existsb (fun c => c =? name) (columns (labels raw))))
              ["Date"; "Units"; "UnitPrice"; "Revenue"].
Proof.
  intros N. destruct (normalize_inv _ _ N) as (pre & idx & W & _ & C & _).
  rewrite C, (with_revenue_columns _ _ W).
  set (c0 := columns (labels raw)).
  cbn [filter].
  destruct (existsb (fun c => c =? "Date") c0) eqn:E1;
    destruct (existsb (fun c => c =? "Units") c0) eqn:E2;
    destruct (existsb (fun c => c =? "UnitPrice") c0) eqn:E3;
    destruct (existsb (fun c => c =? "Revenue") c0) eqn:E4;
    cbn [negb];
    unfold add_label;
    repeat (rewrite ?E1, ?E2, ?E3, ?E4,
              ?existsb_label_app by discriminate);
    rewrite <- ?app_assoc; try reflexivity; now rewrite ?app_nil_r.
Qed.

End NormalizerColumns.

Lemma put_rows_keep (name : string) (cols : list string) :
  forall (rs : list (list cell)) (vs : list cell),
    List.length vs = List.length rs ->
    Forall2 (fun r r' => forall other k,
                 other <> name -> In k (positions_from 0 other cols) ->
                 at_col k r' = at_col k r)
            rs (map (fun rv => put name (snd rv) cols (fst rv)) (combine rs vs)).
Proof.
  induction rs as [|r rs IH]; intros [|v vs] L; simpl in L; try discriminate;
    simpl; constructor.
  - intros other k N Hk.
    apply (put_miss name other (mkDataFrame cols []) v r k N Hk).
  - apply IH. now injection L.
Qed.

Lemma set_column_keeps (name : string) (vals : list cell) (df : DataFrame) :
  List.length vals = List.length (rows df) ->
  Forall2 (fun r r' => forall other k,
               other <> name -> In k (positions other df) ->
               at_col k r' = at_col k r)
          (rows df) (rows (set_column name vals df)).
Proof. intros L. now apply put_rows_keep. Qed.

Lemma Forall2_compose (A : Type) (R S T : A -> A -> Prop) (l1 l2 l3 : list A) :
  (forall a b c, R a b -> S b c -> T a c) ->
  Forall2 R l1 l2 -> Forall2 S l2 l3 -> Forall2 T l1 l3.
Proof.
  intros H F. revert l3. induction F as [|a b l1 l2 Rab F IH]; intros l3 G.
  - inversion G. constructor.
  - inversion G; subst. constructor; eauto.
Qed.

Section PassThrough.

Context {pd : Coercions}.

Lemma with_revenue_keeps (raw pre : DataFrame) :
  with_revenue raw = Ok pre ->
  Forall2 (fun r r' => forall name k,
               untouched name -> In k (positions name (labels raw)) ->
               at_col k r' = at_col k r)
          (rows raw) (rows pre).
Proof.
  unfold with_revenue. fold (labels raw).
  set (df0 := labels raw).
  destruct (coerce_date df0) as [dates|] eqn:Ed; cbn [bind]; [|discriminate].
  set (df1 := set_column "Date" dates df0).
  destruct (coerce_number "Units" df1) as [units|] eqn:Eu; cbn [bind]; [|discriminate].
  set (df2 := set_column "Units" units df1).
  destruct (coerce_number "UnitPrice" df2) as [prices|] eqn:Ep; cbn [bind]; [|discriminate].
  set (df3 := set_column "UnitPrice" prices df2).
  intros H; injection H as <-.
  pose proof (set_column_keeps "Date" dates df0 (coerce_date_length _ _ Ed)) as K0.
  fold df1 in K0.
  pose proof (set_column_keeps "Units" units df1 (coerce_number_length _ _ _ Eu)) as K1.
  fold df2 in K1.
  pose proof (set_column_keeps "UnitPrice" prices df2 (coerce_number_length _ _ _ Ep)) as K2.
  fold df3 in K2.
  assert (K3 := set_column_keeps "Revenue"
                  (times (getitem "Units" df3) (getitem "UnitPrice" df3)) df3).
  assert (L3 : List.length (times (getitem "Units" df3) (getitem "UnitPrice" df3))
               = List.length (rows df3))
    by (rewrite times_getitem; apply length_map).
  specialize (K3 L3).
  change (rows raw) with (rows df0).
  assert (G1 : Forall2 (fun r r' => forall name k,
               untouched name -> In k (positions name df0) ->
               at_col k r' = at_col k r) (rows df0) (rows df1)).
  { eapply Forall2_impl; [|exact K0].
    intros a b H name k (U1 & _) Hk. now apply (H name k). }
  assert (G2 : Forall2 (fun r r' => forall name k,
               untouched name -> In k (positions name df0) ->
               at_col k r' = at_col k r) (rows df0) (rows df2)).
  { refine (Forall2_compose _ _ _ _ _ _ _ _ G1 K1).
    intros a b c H1 H2 name k U Hk. pose proof U as (U1 & U2 & U3 & U4).
    rewrite (H2 name k U2), (H1 name k U Hk); [reflexivity|].
    unfold df1. now rewrite set_column_other by assumption. }
  assert (G3 : Forall2 (fun r r' => forall name k,
               untouched name -> In k (positions name df0) ->
               at_col k r' = at_col k r) (rows df0) (rows df3)).
  { refine (Forall2_compose _ _ _ _ _ _ _ _ G2 K2).
    intros a b c H1 H2 name k U Hk. pose proof U as (U1 & U2 & U3 & U4).
    rewrite (H2 name k U3), (H1 name k U Hk); [reflexivity|].
    unfold df2, df1. now rewrite !set_column_other by assumption. }
  refine (Forall2_compose _ _ _ _ _ _ _ _ G3 K3).
  intros a b c H1 H2 name k U Hk. pose proof U as (U1 & U2 & U3 & U4).
  rewrite (H2 name k U4), (H1 name k U Hk); [reflexivity|].
  unfold df3, df2, df1. now rewrite !set_column_other by assumption.
Qed.

(** X7.  The Normalizer keeps the rows in their order and drops
    exactly those with a null under Date, Product, Region, Units or
    UnitPrice; and it never changes a cell of any other column than
    Date, Units, UnitPrice and Revenue: Product, Region and the
    columns it does not know pass through as they are. *)
Theorem normalizer_passes_through (raw df : DataFrame) :
  normalize raw = Ok df ->
  exists pre idx,
    with_revenue raw = Ok pre
    /\ columns df = columns pre
    /\ Forall2 (fun r r' => forall name k,
                   untouched name -> In k (positions name (labels raw)) ->
                   at_col k r' = at_col k r)
               (rows raw) (rows pre)
    /\ rows df = filter (complete idx) (rows pre)
    /\ (forall r, complete idx r = true <->
                  forall name k, In name required ->
                                 In k (positions name pre) ->
                                 isna (at_col k r) = false).
Proof.
  intros N. destruct (normalize_inv _ _ N) as (pre & idx & W & S & C & R).
  exists pre, idx. split; [exact W|]. split; [exact C|].
  split; [now apply with_revenue_keeps|]. split; [exact R|].
  intros r. unfold complete. rewrite forallb_forall. split.
  - intros H name k Hn Hk.
    specialize (H k (subset_positions_In _ _ _ S name k Hn Hk)).
    unfold notna in H. now apply negb_true_iff in H.
  - intros H k Hk.
    destruct (subset_positions_only _ _ _ S k Hk) as (name & Hn & Hp).
    unfold notna. now rewrite (H name k Hn Hp).
Qed.

End PassThrough.

(** ** The filters *)

Lemma filter_filter (A : Type) (f g : A -> bool) (l : list A) :
  filter g (filter f l) = filter (fun x => f x && g x) l.
Proof.
  induction l as [|a l IH]; simpl; [reflexivity|].
  destruct (f a); simpl; [destruct (g a)|]; now rewrite IH.
Qed.

Lemma filter_isin_select (name : string) (selected : list cell) (df : DataFrame) :
  filter_isin name selected df
  = select (fun r => isin (loc df r name) selected) df.
Proof.
  unfold filter_isin, select, iloc_empty. destruct selected; [|reflexivity].
  now rewrite filter_none.
Qed.

Lemma apply_filters_rows (df : DataFrame) (sel : FilterSelection)
  (range : option (list Z)) :
  apply_filters df sel range
  = mkDataFrame (columns df) (filter (passes df sel range) (rows df)).
Proof.
  unfold apply_filters. rewrite !filter_isin_select.
  unfold filter_date, select, passes; cbn [columns rows].
  destruct range as [[|d1 [|d2 [|d3 l]]]|]; cbn [columns rows];
    rewrite ?filter_filter; f_equal;
    apply filter_ext; intros r; unfold loc, positions; cbn [columns];
    rewrite ?andb_true_r, ?andb_assoc; reflexivity.
Qed.

(** X8.  The filtered table has the columns of the cleaned table and
    those of its rows, in their order, that pass the three tests
    together: Region among the selected, Product among the selected,
    Date within the range when the range has its two ends.  The
    empty-selection branches agree with membership in the empty
    selection, and filtering twice changes nothing. *)
Theorem apply_filters_spec (df : DataFrame) (sel : FilterSelection)
  (range : option (list Z)) :
  apply_filters df sel range
  = mkDataFrame (columns df) (filter (passes df sel range) (rows df))
  /\ apply_filters (apply_filters df sel range) sel range
     = apply_filters df sel range.
Proof.
  pose proof (fun d => apply_filters_rows d sel range) as E.
  split; [apply E|].
  rewrite (E (apply_filters df sel range)), (E df); cbn [columns rows].
  f_equal. rewrite filter_filter. apply filter_ext. intros r.
  change (passes (mkDataFrame (columns df) (filter (passes df sel range) (rows df)))
                 sel range r) with (passes df sel range r).
  now destruct (passes df sel range r).
Qed.

(** X9.  A range whose end date is before its start date leaves no
    row. *)
Theorem reversed_range_leaves_nothing (df : DataFrame) (sel : FilterSelection)
  (d1 d2 : Z) :
  (d2 < d1)%Z ->
  rows (apply_filters df sel (Some [d1; d2])) = [].
Proof.
  intros H. rewrite (apply_filters_rows df sel (Some [d1; d2])).
  cbn [rows]. apply filter_none. intros r _. unfold passes, in_range.
  destruct (date_of (loc df r "Date")) as [t|]; [|now rewrite !andb_false_r].
  assert (K : ((midnight d1 <=? t) && (t <=? midnight d2 + day - second))%Z = false).
  { apply andb_false_iff.
    destruct (Z.leb_spec (midnight d1) t) as [A|A]; [right|now left].
    apply Z.leb_gt. unfold midnight, day, second in *. lia. }
  rewrite K. now rewrite andb_false_r.
Qed.

Lemma reversed_range_leaves_nothing_witness :
  rows (apply_filters sales_clean Grouped.everything (Some [19001; 19000]%Z)) = [].
Proof.
  apply (reversed_range_leaves_nothing sales_clean Grouped.everything 19001 19000).
  lia.
Defined.

Section SelectionAndErrors.

Context {pd : Coercions}.

Lemma filter_engine_ok (raw df : DataFrame) (sel : FilterSelection)
  (range : option (list Z)) :
  normalize raw = Ok df ->
  exists clean, filter_engine df sel range = Ok clean
                /\ columns clean = columns df
                /\ rows clean
                   = filter (complete (positions "Revenue" df))
                            (filter (passes df sel range) (rows df)).
Proof.
  intros N. unfold filter_engine.
  rewrite (apply_filters_rows df sel range).
  rewrite dropna_revenue by exact (normalize_has_revenue _ _ N).
  eexists; split; [reflexivity|]. split; reflexivity.
Qed.


End SelectionAndErrors.


(** ** The order of cells and the options of the multiselects *)

Lemma lex_antisym (a b : Z * Z * Z) : lex b a = CompOpp (lex a b).
Proof.
  destruct a as [[a1 a2] a3], b as [[b1 b2] b3]; unfold lex; cbn [fst snd].
  rewrite (Z.compare_antisym a1 b1), (Z.compare_antisym a2 b2),
    (Z.compare_antisym a3 b3).
  destruct (a1 ?= b1)%Z, (a2 ?= b2)%Z, (a3 ?= b3)%Z; reflexivity.
Qed.

Lemma float_trichotomy (x y : float64) :
  isnan x = false -> isnan y = false ->
  Float64.ltb x y = false -> Float64.ltb y x = false -> Float64.eqb x y = true.
Proof.
  intros Hx Hy A B. apply eqb_rank. repeat split; auto.
  apply lex_eq.
  destruct (lex (rank x) (rank y)) eqn:E; [reflexivity| |].
  - apply (ltb_rank x y Hx Hy) in E. congruence.
  - assert (K : lex (rank y) (rank x) = Lt) by (rewrite lex_antisym, E; reflexivity).
    apply (ltb_rank y x Hy Hx) in K. congruence.
Qed.

Lemma string_ltb_lt (s t : string) :
  String.ltb s t = true <-> OrderedTypeEx.String_as_OT.lt s t.
Proof.
  rewrite <- OrderedTypeEx.String_as_OT.cmp_lt.
  unfold String.ltb, OrderedTypeEx.String_as_OT.cmp.
  destruct (String.compare s t); split; congruence.
Qed.

Lemma string_ltb_false (s t : string) :
  String.ltb s t = false <-> s = t \/ String.ltb t s = true.
Proof.
  unfold String.ltb. pose proof (String.compare_antisym t s) as A.
  destruct (String.compare s t) eqn:E; rewrite A; cbn [CompOpp].
  - apply String.compare_eq_iff in E. split; [now left|reflexivity].
  - split; [discriminate|]. intros [->|H]; [|discriminate].
    cbn [CompOpp] in A. congruence.
  - split; [now right|reflexivity].
Qed.

Lemma string_ltb_asym (s t : string) :
  String.ltb s t = true -> String.ltb t s = false.
Proof.
  intros H. destruct (String.ltb t s) eqn:E; [|reflexivity].
  apply string_ltb_lt in H, E.
  exfalso. apply (OrderedTypeEx.String_as_OT.lt_not_eq s s); [|reflexivity].
  eapply OrderedTypeEx.String_as_OT.lt_trans; eauto.
Qed.

Lemma string_ltb_negtrans (a b c : string) :
  String.ltb a b = false -> String.ltb b c = false -> String.ltb a c = false.
Proof.
  intros A B. apply string_ltb_false in A, B. apply string_ltb_false.
  destruct A as [->|A], B as [->|B]; auto.
  right. apply string_ltb_lt in A, B. apply string_ltb_lt.
  eapply OrderedTypeEx.String_as_OT.lt_trans; eauto.
Qed.

Lemma like_cases (c0 a : cell) :
  like c0 a ->
  (exists x y, c0 = CNum x /\ a = CNum y /\ isnan y = false)
  \/ (exists s t, c0 = CStr s /\ a = CStr t)
  \/ (exists s t, c0 = CTime s /\ a = CTime t).
Proof.
  unfold like, notna. destruct c0, a; simpl; intros [K N]; try discriminate.
  - left. exists x, x0. repeat split. now apply negb_true_iff in N.
  - right; left. eauto.
  - right; right. eauto.
Qed.

Ltac like_inversion :=
  repeat match goal with
         | H : like _ _ |- _ =>
             apply like_cases in H;
             destruct H as [(? & ? & ? & ? & ?)|[(? & ? & ? & ?)|(? & ? & ? & ?)]]
         end; subst; try discriminate;
  repeat match goal with
         | H : CNum _ = CNum _ |- _ => injection H as H; subst
         | H : CStr _ = CStr _ |- _ => injection H as H; subst
         | H : CTime _ = CTime _ |- _ => injection H as H; subst
         end.

Lemma cell_ltb_asym (c0 a b : cell) :
  like c0 a -> like c0 b -> cell_ltb a b = true -> cell_ltb b a = false.
Proof.
  intros Ha Hb. like_inversion; simpl.
  - now apply ltb_asym.
  - apply string_ltb_asym.
  - intros H. apply Z.ltb_lt in H. apply Z.ltb_ge. lia.
Qed.

Lemma cell_ltb_negtrans (c0 a b c : cell) :
  like c0 a -> like c0 b -> like c0 c ->
  cell_ltb a b = false -> cell_ltb b c = false -> cell_ltb a c = false.
Proof.
  intros Ha Hb Hc. like_inversion; simpl.
  - now apply ltb_negtrans.
  - apply string_ltb_negtrans.
  - intros A B. apply Z.ltb_ge in A, B. apply Z.ltb_ge. lia.
Qed.

Lemma cell_trichotomy (c0 a b : cell) :
  like c0 a -> like c0 b ->
  cell_ltb a b = false -> cell_ltb b a = false -> cell_eqb a b = true.
Proof.
  intros Ha Hb. like_inversion; simpl.
  - now apply float_trichotomy.
  - intros A B. apply string_ltb_false in A. destruct A as [->|A].
    + apply String.eqb_refl.
    + congruence.
  - intros A B. apply Z.ltb_ge in A, B. apply Z.eqb_eq. lia.
Qed.

Lemma cell_eqb_kind (a b : cell) : cell_eqb a b = true -> same_kind a b = true.
Proof. destruct a, b; simpl; auto. Qed.

Lemma same_kind_trans (a b c : cell) :
  same_kind a b = true -> same_kind a c = true -> same_kind b c = true.
Proof. destruct a, b, c; simpl; auto. Qed.

(** A sorted list of pairwise different keys is strictly ascending. *)
Lemma strictly_ascending (c0 : cell) (l : list cell) :
  Forall (like c0) l ->
  NoDup l ->
  (forall a b, In a l -> In b l -> cell_eqb a b = true -> a = b) ->
  StronglySorted (fun a b => cell_ltb b a = false) l ->
  StronglySorted (fun a b => cell_ltb a b = true) l.
Proof.
  induction l as [|a l IH]; intros F ND Inj S; [constructor|].
  inversion F as [|? ? La Fl]; subst.
  inversion ND as [|? ? Na NDl]; subst.
  inversion S as [|? ? Sl Fa]; subst.
  constructor.
  - apply IH; auto. intros x y Hx Hy. apply Inj; now right.
  - rewrite Forall_forall in *. intros b Hb.
    destruct (cell_ltb a b) eqn:E; [reflexivity|].
    exfalso. apply Na.
    rewrite (Inj a b (or_introl eq_refl) (or_intror Hb)); [exact Hb|].
    apply (cell_trichotomy c0); auto.
Qed.

Lemma sort_keys_strict (c0 : cell) (l : list cell) :
  Forall (like c0) l ->
  Forall (fun x => notna x = true) l ->
  StronglySorted (fun a b => cell_ltb a b = true) (sort cell_ltb (unique l)).
Proof.
  intros F N.
  destruct (unique_distinct l N) as (ND & Inj).
  assert (FU : Forall (like c0) (unique l)).
  { rewrite Forall_forall in *. intros x Hx. apply F. now apply unique_incl. }
  pose proof (sort_perm _ cell_ltb (unique l)) as Pm.
  apply (strictly_ascending c0).
  - eapply Permutation_Forall; [symmetry; exact Pm|exact FU].
  - eapply Permutation_NoDup; [symmetry; exact Pm|exact ND].
  - intros a b Ha Hb. apply Inj; eapply Permutation_in; eauto.
  - apply (sort_sorted _ cell_ltb (like c0)); auto.
    + intros a b. apply cell_ltb_asym.
    + intros a b c. apply cell_ltb_negtrans.
Qed.

Lemma sorted_ok (l opts : list cell) :
  sorted l = Ok opts ->
  opts = sort cell_ltb l
  /\ forall c0, In c0 l -> Forall (fun c => same_kind c0 c = true) l.
Proof.
  unfold sorted. destruct l as [|c l]; [intros H; injection H as <-; split; auto;
    intros c0 []|].
  destruct (forallb (same_kind c) l) eqn:E; [|discriminate].
  intros H; injection H as <-. split; [reflexivity|].
  rewrite forallb_forall in E.
  assert (K : forall x, In x (c :: l) -> same_kind c x = true).
  { intros x [<-|Hx]; [now destruct c|now apply E]. }
  intros c0 H0. apply Forall_forall. intros x Hx.
  apply (same_kind_trans c); auto.
Qed.

Lemma loc_series (name : string) (df : DataFrame) (i : nat) (r : list cell) :
  get name df = Series i -> loc df r name = at_col i r.
Proof.
  unfold get, loc. destruct (positions name df) as [|j [|k l]]; try discriminate.
  intros H; now injection H as ->.
Qed.

Lemma options_cover (name : string) (df : DataFrame) (opts : list cell) :
  options name df = Ok opts ->
  forall r, In r (rows df) -> notna (loc df r name) = true ->
    isin (loc df r name) opts = true.
Proof.
  unfold options. destruct (get name df) as [|i|] eqn:G; try discriminate.
  intros H. destruct (sorted_ok _ _ H) as (-> & _).
  set (col := filter notna (column i df)) in *.
  pose proof (notna_filtered (column i df)) as N. fold col in N.
  pose proof (sort_perm _ cell_ltb (unique col)) as Pm.
  intros r Hr Nr. rewrite (loc_series _ _ _ r G) in *.
  destruct (unique_covers col (at_col i r) N) as (k & Hk & E).
  { unfold col. apply filter_In. split; [|exact Nr].
    unfold column. apply in_map_iff. now exists r. }
  unfold isin. apply existsb_exists. exists k. split; [|exact E].
  eapply Permutation_in; [symmetry; exact Pm|exact Hk].
Qed.

(** X11.  The options of a multiselect are the non-null values of the
    column, each once, in strictly ascending order; every option is the
    value of some row, and the value of every row is among them. *)
Theorem options_spec (name : string) (df : DataFrame) (opts : list cell) :
  options name df = Ok opts ->
  StronglySorted (fun a b => cell_ltb a b = true) opts
  /\ (forall c, In c opts ->
        notna c = true /\ exists r, In r (rows df) /\ loc df r name = c)
  /\ (forall r, In r (rows df) -> notna (loc df r name) = true ->
        isin (loc df r name) opts = true).
Proof.
  unfold options. destruct (get name df) as [|i|] eqn:G; try discriminate.
  intros H. destruct (sorted_ok _ _ H) as (-> & Kind).
  set (col := filter notna (column i df)) in *.
  pose proof (notna_filtered (column i df)) as N. fold col in N.
  pose proof (sort_perm _ cell_ltb (unique col)) as Pm.
  split; [|split].
  - pose proof (unique_distinct col N) as (ND & Inj).
    assert (Sub : forall x, In x (unique col) -> notna x = true).
    { intros x Hx. rewrite Forall_forall in N. apply N. now apply unique_incl. }
    destruct (unique col) as [|c0 u]; [constructor|].
    assert (F : Forall (like c0) (c0 :: u)).
    { apply Forall_forall. intros x Hx. split; [|now apply Sub].
      specialize (Kind c0 (or_introl eq_refl)).
      rewrite Forall_forall in Kind. now apply Kind. }
    apply (strictly_ascending c0).
    + eapply Permutation_Forall; [symmetry; exact Pm|exact F].
    + eapply Permutation_NoDup; [symmetry; exact Pm|exact ND].
    + intros a b Ha Hb. apply Inj; eapply Permutation_in; eauto.
    + apply (sort_sorted _ cell_ltb (like c0)).
      * intros a b. apply cell_ltb_asym.
      * intros a b c. apply cell_ltb_negtrans.
      * exact F.
  - intros c Hc. eapply Permutation_in in Hc; [|exact Pm].
    apply unique_incl in Hc. unfold col in Hc. apply filter_In in Hc.
    destruct Hc as [Hc Nc]. split; [exact Nc|].
    unfold column in Hc. apply in_map_iff in Hc. destruct Hc as (r & <- & Hr).
    exists r. split; [exact Hr|]. now apply loc_series.
  - intros r Hr Nr. rewrite (loc_series _ _ _ r G) in *.
    destruct (unique_covers col (at_col i r) N) as (k & Hk & E).
    { unfold col. apply filter_In. split; [|exact Nr].
      unfold column. apply in_map_iff. now exists r. }
    unfold isin. apply existsb_exists. exists k. split; [|exact E].
    eapply Permutation_in; [symmetry; exact Pm|exact Hk].
Qed.

Lemma same_kind_sym (a b : cell) : same_kind a b = same_kind b a.
Proof. destruct a, b; reflexivity. Qed.

Lemma same_kind_refl (a : cell) : same_kind a a = true.
Proof. now destruct a. Qed.

(** X12.  Computing the options raises TypeError exactly when two
    non-null values of the column are of unlike kinds (a text and a
    number, say), which [sorted] cannot compare. *)
Theorem options_type_error (name : string) (df : DataFrame) (i : nat) :
  get name df = Series i ->
  (options name df = Raise TypeError
   <-> exists r r', In r (rows df) /\ In r' (rows df)
                    /\ notna (loc df r name) = true
                    /\ notna (loc df r' name) = true
                    /\ same_kind (loc df r name) (loc df r' name) = false).
Proof.
  intros G. unfold options. rewrite G.
  set (col := filter notna (column i df)).
  pose proof (notna_filtered (column i df)) as N. fold col in N.
  assert (Row : forall c, In c col ->
            exists r, In r (rows df) /\ loc df r name = c /\ notna c = true).
  { intros c Hc. unfold col in Hc. apply filter_In in Hc. destruct Hc as [Hc Nc].
    unfold column in Hc. apply in_map_iff in Hc. destruct Hc as (r & <- & Hr).
    exists r. repeat split; auto. now apply loc_series. }
  split.
  - unfold sorted. destruct (unique col) as [|c u] eqn:U; [discriminate|].
    destruct (forallb (same_kind c) u) eqn:E; [discriminate|]. intros _.
    assert (X : exists d, In d u /\ same_kind c d = false).
    { clear -E. induction u as [|d u IH]; simpl in E; [discriminate|].
      destruct (same_kind c d) eqn:K.
      - destruct (IH E) as (x & Hx & Kx). exists x. split; [now right|exact Kx].
      - exists d. split; [now left|exact K]. }
    destruct X as (d & Hd & K).
    destruct (Row c) as (r & Hr & Er & Nr).
    { apply unique_incl. rewrite U. now left. }
    destruct (Row d) as (r' & Hr' & Er' & Nr').
    { apply unique_incl. rewrite U. now right. }
    exists r, r'. rewrite Er, Er'. auto.
  - intros (r & r' & Hr & Hr' & Nr & Nr' & K).
    rewrite (loc_series _ _ _ r G) in *. rewrite (loc_series _ _ _ r' G) in *.
    assert (Ca : In (at_col i r) col).
    { unfold col. apply filter_In. split; [|exact Nr].
      unfold column. apply in_map_iff. now exists r. }
    assert (Cb : In (at_col i r') col).
    { unfold col. apply filter_In. split; [|exact Nr'].
      unfold column. apply in_map_iff. now exists r'. }
    destruct (unique_covers col _ N Ca) as (ka & Ha & Ea).
    destruct (unique_covers col _ N Cb) as (kb & Hb & Eb).
    apply cell_eqb_kind in Ea, Eb.
    unfold sorted. destruct (unique col) as [|c u] eqn:U; [destruct Ha|].
    destruct (forallb (same_kind c) u) eqn:E; [|reflexivity].
    exfalso. rewrite forallb_forall in E.
    assert (Kc : forall x, In x (c :: u) -> same_kind c x = true).
    { intros x [<-|Hx]; [apply same_kind_refl|now apply E]. }
    pose proof (Kc ka Ha) as K1. pose proof (Kc kb Hb) as K2.
    assert (K3 : same_kind ka kb = true) by (apply (same_kind_trans c); auto).
    rewrite same_kind_sym in Ea.
    assert (K4 : same_kind (at_col i r) kb = true)
      by (apply (same_kind_trans ka); auto).
    rewrite same_kind_sym in Eb.
    assert (K5 : same_kind (at_col i r) (at_col i r') = true).
    { rewrite same_kind_sym in K4. rewrite same_kind_sym.
      apply (same_kind_trans kb); auto. }
    congruence.
Qed.

Lemma options_type_error_witness :
  options "Region" Mixed.table = Raise TypeError
  <-> exists r r', In r (rows Mixed.table) /\ In r' (rows Mixed.table)
                   /\ notna (loc Mixed.table r "Region") = true
                   /\ notna (loc Mixed.table r' "Region") = true
                   /\ same_kind (loc Mixed.table r "Region")
                                (loc Mixed.table r' "Region") = false.
Proof.
  apply (options_type_error "Region" Mixed.table 2). reflexivity.
Defined.

(** ** The defaults of the widgets *)

Lemma date_part_bounds (t : Z) :
  (midnight (date_part t) <= t < midnight (date_part t) + day)%Z.
Proof.
  unfold midnight, date_part.
  assert (D : (0 < day)%Z) by (unfold day, second; lia).
  pose proof (Z.div_mod t day ltac:(lia)) as E.
  pose proof (Z.mod_pos_bound t day D) as B. lia.
Qed.

Lemma min_max_bounds (l : list cell) (t : Z) :
  In (CTime t) l ->
  exists a b,
    fold_right (fun c acc =>
                  match date_of c, acc with
                  | Some t, Some m => Some (Z.min t m)
                  | Some t, None => Some t
                  | None, _ => acc
                  end) None l = Some a
    /\ fold_right (fun c acc =>
                     match date_of c, acc with
                     | Some t, Some m => Some (Z.max t m)
                     | Some t, None => Some t
                     | None, _ => acc
                     end) None l = Some b
    /\ (a <= t <= b)%Z.
Proof.
  induction l as [|c l IH]; intros H; [destruct H|].
  cbn [fold_right].
  destruct H as [->|H].
  - cbn [date_of].
    destruct (fold_right _ None l) as [m|]; destruct (fold_right _ None l) as [m'|];
      eexists; eexists; (split; [reflexivity|split; [reflexivity|lia]]).
  - destruct (IH H) as (a & b & -> & -> & B).
    destruct (date_of c) as [u|];
      eexists; eexists; (split; [reflexivity|split; [reflexivity|lia]]).
Qed.

Section Defaults.

Context {pd : Coercions}.

Lemma normalize_date (raw df : DataFrame) :
  normalize raw = Ok df ->
  forall r, In r (rows df) -> exists t, loc df r "Date" = CTime t.
Proof.
  intros N r Hr.
  destruct (normalize_inv _ _ N) as (pre & idx & W & S & C & Rw).
  rewrite Rw in Hr. apply filter_In in Hr. destruct Hr as [Hr Cm].
  destruct (with_revenue_rows _ _ W _ Hr) as (d & u & p & D & Kd & _).
  pose proof (complete_loc required pre idx r "Date" S Cm) as Q.
  rewrite (loc_columns pre df r "Date" C), D.
  rewrite D in Q. destruct Kd as [->|[t ->]].
  - simpl in Q. discriminate Q. unfold required; simpl; tauto.
  - now exists t.
Qed.

(** X13.  With the widgets at their defaults (all regions, all
    products, first to last date) every row passes the Region and the
    Product filter, and every row stamped on a whole second passes the
    Date filter: when all timestamps are whole seconds the default
    view shows the whole cleaned table. *)
Theorem default_selection_keeps (raw df : DataFrame) (sel : FilterSelection) :
  normalize raw = Ok df ->
  default_selection df = Ok sel ->
  (forall r, In r (rows df) ->
             isin (loc df r "Region") (selected_region sel) = true
             /\ isin (loc df r "Product") (selected_product sel) = true)
  /\ (forall r t, In r (rows df) -> loc df r "Date" = CTime t ->
                  (t mod second = 0)%Z ->
                  passes df sel (date_range df sel) r = true)
  /\ ((forall r, In r (rows df) ->
                 exists t, loc df r "Date" = CTime t /\ (t mod second = 0)%Z) ->
      apply_filters df sel (date_range df sel) = df).
Proof.
  intros N D. unfold default_selection in D.
  destruct (options "Region" df) as [regs|] eqn:OR; cbn [bind] in D; [|discriminate].
  destruct (options "Product" df) as [prods|] eqn:OP; cbn [bind] in D; [|discriminate].
  injection D as <-.
  pose proof (options_cover _ _ _ OR) as CR.
  pose proof (options_cover _ _ _ OP) as CP.
  assert (A : forall r, In r (rows df) ->
             isin (loc df r "Region") regs = true
             /\ isin (loc df r "Product") prods = true).
  { intros r Hr.
    destruct (normalize_rows _ _ N _ Hr) as (u & p & _ & _ & _ & _ & _ & NP & NR & _).
    split; [apply CR|apply CP]; auto; unfold notna; [now rewrite NR|now rewrite NP]. }
  assert (B : forall r t, In r (rows df) -> loc df r "Date" = CTime t ->
                  (t mod second = 0)%Z ->
                  passes df
                    (mkSelection regs prods
                       match min_date df, max_date df with
                       | Some a, Some b => [date_part a; date_part b]
                       | _, _ => []
                       end)
                    (date_range df
                       (mkSelection regs prods
                          match min_date df, max_date df with
                          | Some a, Some b => [date_part a; date_part b]
                          | _, _ => []
                          end)) r = true).
  { intros r t Hr Et Whole.
    destruct (A r Hr) as (IR & IP).
    unfold passes; cbn [selected_region selected_product]. rewrite IR, IP.
    cbn [andb].
    assert (Hin : In (CTime t) (getitem "Date" df)).
    { unfold getitem. apply in_map_iff. exists r. split; [exact Et|exact Hr]. }
    destruct (min_max_bounds _ t Hin) as (a & b & Ea & Eb & Bd).
    unfold date_range, min_date, max_date. rewrite Ea, Eb. cbn [date_input].
    rewrite Et. unfold in_range; cbn [date_of].
    pose proof (date_part_bounds a) as Ba. pose proof (date_part_bounds b) as Bb.
    pose proof (Z.div_mod t second ltac:(unfold second; lia)) as Q.
    rewrite Whole in Q.
    apply andb_true_iff. split; apply Z.leb_le.
    - lia.
    - unfold midnight, day, second in *. lia. }
  split; [exact A|]. split; [exact B|].
  intros All. rewrite apply_filters_rows.
  rewrite filter_all; [now destruct df|].
  intros r Hr. destruct (All r Hr) as (t & Et & Whole). now apply (B r t).
Qed.

End Defaults.

Lemma default_selection_keeps_witness :
  apply_filters sales_clean sales_defaults (date_range sales_clean sales_defaults)
  = sales_clean.
Proof.
  assert (N : @normalize typed_cells Samples.sales = Ok sales_clean)
    by (vm_compute; reflexivity).
  assert (D : default_selection sales_clean = Ok sales_defaults)
    by (vm_compute; reflexivity).
  apply (proj2 (proj2 (@default_selection_keeps typed_cells Samples.sales
                         sales_clean sales_defaults N D))).
  intros r Hr. vm_compute in Hr.
  destruct Hr as [<-|[<-|[]]]; eexists;
    (split; [vm_compute; reflexivity | vm_compute; reflexivity]).
Defined.

(** ** The series of the charts *)

Lemma sort_values_ascending (s : list (cell * float64)) :
  StronglySorted (fun a b => Float64.ltb (snd b) (snd a) = false)
                 (sort_values true s)
  /\ exists d n, sort_values true s = d ++ n
                 /\ Forall summed d
                 /\ Forall (fun kv => isnan (snd kv) = true) n.
Proof.
  unfold sort_values.
  set (nn := filter (fun kv => negb (isnan (snd kv))) s).
  set (na := filter (fun kv => isnan (snd kv)) s).
  pose proof (filter_summed s) as Pn. fold nn in Pn.
  assert (Pa : Forall (fun kv => isnan (snd kv) = true) na).
  { apply Forall_forall. intros kv H. apply filter_In in H. tauto. }
  assert (Ps : Forall summed (sort value_ltb nn)).
  { eapply Permutation_Forall; [|exact Pn]. symmetry. apply sort_perm. }
  split.
  - apply strongly_sorted_app.
    + exact (sort_sorted _ value_ltb summed value_ltb_asym
               value_ltb_negtrans nn Pn).
    + apply strongly_sorted_any. intros a b Ha _.
      rewrite Forall_forall in Pa. specialize (Pa a Ha).
      destruct (snd a); try discriminate. now destruct (snd b).
    + intros a b _ Hb.
      rewrite Forall_forall in Pa. specialize (Pa b Hb).
      destruct (snd b); try discriminate. reflexivity.
  - exists (sort value_ltb nn), na. repeat split; auto.
Qed.

Lemma unique_nil (l : list cell) : unique l = [] <-> l = [].
Proof. destruct l; simpl; split; auto; discriminate. Qed.

Lemma groupby_sum_nil (key val : string) (df : DataFrame) :
  groupby_sum key val df = []
  <-> forall r, In r (rows df) -> notna (loc df r key) = false.
Proof.
  unfold groupby_sum. split.
  - intros H r Hr. apply map_eq_nil in H.
    assert (U : unique (filter notna (getitem key df)) = []).
    { apply Permutation_nil. rewrite <- H. apply sort_perm. }
    apply (proj1 (unique_nil _)) in U.
    destruct (notna (loc df r key)) eqn:E; [|reflexivity].
    assert (K : In (loc df r key) (filter notna (getitem key df))).
    { apply filter_In. split; [|exact E]. unfold getitem.
      apply in_map_iff. now exists r. }
    rewrite U in K. destruct K.
  - intros H. replace (filter notna (getitem key df)) with (@nil cell);
      [reflexivity|].
    symmetry. apply filter_none. intros c Hc. unfold getitem in Hc.
    apply in_map_iff in Hc. destruct Hc as (r & <- & Hr). now apply H.
Qed.

Lemma groupby_sum_key_of_row (key val : string) (df : DataFrame) (kv : cell * float64) :
  In kv (groupby_sum key val df) ->
  notna (fst kv) = true /\ exists r, In r (rows df) /\ loc df r key = fst kv.
Proof.
  intros H. apply (in_map fst) in H. rewrite groupby_sum_keys in H.
  eapply Permutation_in in H; [|apply sort_perm].
  apply unique_incl in H. apply filter_In in H. destruct H as [H N].
  split; [exact N|]. unfold getitem in H. apply in_map_iff in H.
  destruct H as (r & E & Hr). now exists r.
Qed.

(** X14.  The bar chart's series exists exactly when the filtered table
    has a row; it then has one entry per distinct Product, each the sum
    of Revenue over the rows of that Product, in ascending order of the
    sum (no entry is followed by a smaller one, NaN sums last). *)
Theorem rev_by_product_ascending (df : DataFrame) (s : AggregateSnapshot) :
  aggregate df = Ok s ->
  (rev_by_product s = None <-> rows df = [])
  /\ (forall series, rev_by_product s = Some series ->
        Permutation (map fst series)
                    (unique (filter notna (getitem "Product" df)))
        /\ (forall k v, In (k, v) series ->
              v = sum (map (fun r => loc df r "Revenue") (group "Product" k df)))
        /\ StronglySorted (fun a b => Float64.ltb (snd b) (snd a) = false) series
        /\ (exists d n, series = d ++ n
                        /\ Forall summed d
                        /\ Forall (fun kv => isnan (snd kv) = true) n)).
Proof.
  unfold aggregate. destruct (get "Revenue" df); try discriminate.
  intros H; injection H as <-. cbn [rev_by_product]. unfold is_empty.
  split.
  - destruct (rows df); split; try reflexivity; discriminate.
  - intros series H.
    destruct (rows df) as [|r0 rs] eqn:R; [discriminate|]. injection H as <-.
    split; [|split; [|split]].
    + rewrite (Permutation_map fst (sort_values_perm true _)).
      rewrite groupby_sum_keys. apply sort_perm.
    + intros k v H.
      eapply Permutation_in in H; [|apply sort_values_perm].
      now apply groupby_sum_value in H.
    + apply sort_values_ascending.
    + apply sort_values_ascending.
Qed.

(** X15.  The top product is shown as the placeholder exactly when no
    row of the filtered table has a Product; otherwise the top product
    is the Product of some row of the table. *)
Theorem top_product_of_a_row (df : DataFrame) (s : AggregateSnapshot) :
  aggregate df = Ok s ->
  (top_product_series s = []
   <-> forall r, In r (rows df) -> notna (loc df r "Product") = false)
  /\ (top_product_series s = [] ->
      top_product s = no_product /\ top_product_revenue s = zero)
  /\ (top_product_series s <> [] ->
      notna (top_product s) = true
      /\ exists r, In r (rows df) /\ loc df r "Product" = top_product s).
Proof.
  intros A. destruct (aggregate_inv df s A) as (T & P & R & _).
  pose proof (sort_values_perm false (groupby_sum "Product" "Revenue" df)) as Pm.
  rewrite <- T in Pm.
  split; [|split].
  - rewrite <- (groupby_sum_nil "Product" "Revenue" df). split; intros H.
    + rewrite H in Pm. now apply Permutation_nil in Pm.
    + rewrite H in Pm. symmetry in Pm. now apply Permutation_nil in Pm.
  - intros E. rewrite P, R, E. split; reflexivity.
  - intros NE. rewrite P.
    destruct (top_product_series s) as [|kv t]; [congruence|].
    apply (groupby_sum_key_of_row "Product" "Revenue" df kv).
    eapply Permutation_in; [exact Pm|now left].
Qed.

(** ** The daily trend *)

Lemma map_snd_combine (A B : Type) (l : list A) (l' : list B) :
  List.length l' = List.length l -> map snd (combine l l') = l'.
Proof.
  revert l'. induction l as [|a l IH]; intros [|b l']; simpl; intros L;
    try discriminate; try reflexivity.
  f_equal. apply IH. lia.
Qed.

Lemma getitem_set_same (name : string) (vals : list cell) (df : DataFrame) :
  List.length vals = List.length (rows df) ->
  getitem name (set_column name vals df) = vals.
Proof.
  intros L. unfold getitem.
  change (rows (set_column name vals df))
    with (map (fun rv => put name (snd rv) (columns df) (fst rv))
              (combine (rows df) vals)).
  rewrite map_map.
  erewrite map_ext; [|intros rv; apply loc_set_same].
  now apply map_snd_combine.
Qed.

Lemma getitem_series (name : string) (df : DataFrame) (i : nat) :
  get name df = Series i -> getitem name df = column i df.
Proof.
  intros G. unfold getitem, column. apply map_ext. intros r.
  now apply loc_series.
Qed.

Lemma timestamps_ascending (l : list cell) :
  Forall (like (CTime 0)) l ->
  StronglySorted (fun a b => cell_ltb a b = true) l ->
  exists ts, l = map CTime ts /\ StronglySorted Z.lt ts.
Proof.
  induction l as [|c l IH]; intros F S.
  - exists []. split; [reflexivity|constructor].
  - inversion F as [|? ? Lc Fl]; subst. inversion S as [|? ? Sl Hc]; subst.
    destruct (IH Fl Sl) as (ts & -> & Sts).
    destruct Lc as [K _]. destruct c; try discriminate.
    exists (t :: ts). split; [reflexivity|].
    constructor; [exact Sts|].
    apply Forall_forall. intros u Hu.
    rewrite Forall_forall in Hc.
    specialize (Hc (CTime u) (in_map CTime _ _ Hu)).
    now apply Z.ltb_lt.
Qed.

Section Trend.

Context {pd : Coercions}.

(** X16.  When the trend chart is drawn, its series has one point per
    distinct timestamp that the Date column holds after it has been read
    as dates once more (exact timestamps, not calendar days), the points
    are in strictly increasing order of time, and each point's value is
    the sum of Revenue over the rows of that timestamp. *)
Theorem daily_rev_in_time_order (clean : DataFrame) (s : list (cell * float64)) :
  daily_rev clean = Ok (Some s) ->
  let dates := map (fun c => timestamp (to_datetime (getitem "Date" clean) c))
                   (getitem "Date" clean) in
  let df := set_column "Date" dates clean in
  rows clean <> []
  /\ s <> []
  /\ Permutation (map fst s) (unique (filter notna dates))
  /\ (exists ts, map fst s = map CTime ts /\ StronglySorted Z.lt ts)
  /\ (forall k v, In (k, v) s ->
        v = sum (map (fun r => loc df r "Revenue") (group "Date" k df))).
Proof.
  unfold daily_rev, is_empty.
  destruct (get "Revenue" clean) as [|j|]; try discriminate.
  destruct (rows clean) as [|r0 rs] eqn:R; [discriminate|].
  destruct (get "Date" clean) as [|i|] eqn:G; try discriminate.
  rewrite (getitem_series _ _ _ G).
  set (dates := map _ (column i clean)).
  assert (L : List.length dates = List.length (rows clean)).
  { unfold dates, column. now rewrite !length_map. }
  pose proof (groupby_sum_keys "Date" "Revenue" (set_column "Date" dates clean)) as K.
  pose proof (groupby_sum_value "Date" "Revenue" (set_column "Date" dates clean)) as V.
  rewrite (getitem_set_same _ _ _ L) in K.
  destruct (groupby_sum "Date" "Revenue" (set_column "Date" dates clean))
    as [|kv t] eqn:E; [discriminate|].
  intros H; injection H as <-. cbv zeta.
  split; [discriminate|]. split; [discriminate|].
  assert (F : Forall (like (CTime 0)) (filter notna dates)).
  { apply Forall_forall. intros c Hc. apply filter_In in Hc.
    destruct Hc as [Hc N]. split; [|exact N].
    unfold dates in Hc. apply in_map_iff in Hc. destruct Hc as (x & <- & _).
    destruct (to_datetime (column i clean) x); [reflexivity|discriminate]. }
  split; [|split].
  - rewrite K. apply sort_perm.
  - rewrite K. apply timestamps_ascending.
    + eapply Permutation_Forall; [symmetry; apply sort_perm|].
      apply Forall_forall. intros c Hc. apply unique_incl in Hc.
      rewrite Forall_forall in F. now apply F.
    + apply (sort_keys_strict (CTime 0)); [exact F|].
      apply Forall_forall. intros c Hc. apply filter_In in Hc. tauto.
  - exact V.
Qed.

End Trend.

Lemma daily_rev_in_time_order_witness :
  exists ts, map fst sales_trend = map CTime ts /\ StronglySorted Z.lt ts.
Proof.
  assert (D : @daily_rev typed_cells sales_clean = Ok (Some sales_trend))
    by (vm_compute; reflexivity).
  exact (proj1 (proj2 (proj2 (proj2
           (@daily_rev_in_time_order typed_cells sales_clean sales_trend D))))).
Defined.

Lemma rev_by_product_ascending_witness :
  exists series,
    rev_by_product sales_snapshot = Some series
    /\ StronglySorted (fun a b => Float64.ltb (snd b) (snd a) = false) series.
Proof.
  assert (A : aggregate sales_clean = Ok sales_snapshot)
    by (vm_compute; reflexivity).
  destruct (rev_by_product sales_snapshot) as [series|] eqn:E;
    [|vm_compute in E; discriminate].
  exists series. split; [reflexivity|].
  exact (proj1 (proj2 (proj2
           (proj2 (rev_by_product_ascending sales_clean sales_snapshot A)
                  series E)))).
Defined.

Lemma top_product_of_a_row_witness :
  notna (top_product sales_snapshot) = true
  /\ exists r, In r (rows sales_clean)
               /\ loc sales_clean r "Product" = top_product sales_snapshot.
Proof.
  assert (A : aggregate sales_clean = Ok sales_snapshot)
    by (vm_compute; reflexivity).
  apply (proj2 (proj2 (top_product_of_a_row sales_clean sales_snapshot A))).
  vm_compute. discriminate.
Defined.

Lemma normalize_columns_witness :
  columns sales_clean
  = columns (labels Samples.sales)
    ++ filter (fun name =>
                 negb (existsb (fun c => c =? name)
                               (columns (labels Samples.sales))))
              ["Date"; "Units"; "UnitPrice"; "Revenue"].
Proof.
  apply (@normalize_columns typed_cells Samples.sales sales_clean).
  vm_compute. reflexivity.
Defined.

Lemma normalizer_passes_through_witness :
  exists pre idx,
    @with_revenue typed_cells Samples.sales = Ok pre
    /\ columns sales_clean = columns pre
    /\ Forall2 (fun r r' => forall name k,
                   untouched name ->
                   In k (positions name (labels Samples.sales)) ->
                   at_col k r' = at_col k r)
               (rows Samples.sales) (rows pre)
    /\ rows sales_clean = filter (complete idx) (rows pre)
    /\ (forall r, complete idx r = true <->
                  forall name k, In name required ->
                                 In k (positions name pre) ->
                                 isna (at_col k r) = false).
Proof.
  apply (@normalizer_passes_through typed_cells Samples.sales sales_clean).
  vm_compute. reflexivity.
Defined.

Lemma options_spec_witness :
  exists opts,
    options "Region" sales_clean = Ok opts
    /\ StronglySorted (fun a b => cell_ltb a b = true) opts.
Proof.
  destruct (options "Region" sales_clean) as [opts|e] eqn:E;
    [|vm_compute in E; discriminate].
  exists opts. split; [reflexivity|].
  exact (proj1 (options_spec "Region" sales_clean opts E)).
Defined.

(** ** The format of the tiles *)

Lemma commas_at (ds : list ascii) :
  Forall (fun c => c <> ","%char) ds ->
  forall k i, (k <= 3)%nat -> (i < List.length (commas k ds))%nat ->
    (nth i (commas k ds) "0"%char = ","%char <-> ((i + k) mod 4 = 3)%nat).
Proof.
  induction 1 as [|d ds D F IH]; intros k i K L; [simpl in L; lia|].
  cbn [commas] in *. destruct (Nat.eqb_spec k 3) as [->|N].
  - destruct i as [|[|i]]; cbn [nth].
    + split; reflexivity.
    + split; [contradiction|]. cbn. discriminate.
    + cbn [List.length] in L. rewrite IH by lia.
      replace (S (S i) + 3)%nat with (i + 1 + 1 * 4)%nat by lia.
      now rewrite Nat.Div0.mod_add.
  - destruct i as [|i]; cbn [nth].
    + split; [contradiction|]. rewrite Nat.mod_small by lia. lia.
    + cbn [List.length] in L. rewrite IH by lia.
      now replace (i + S k)%nat with (S i + k)%nat by lia.
Qed.

Lemma commas_removed (ds : list ascii) :
  Forall (fun c => c <> ","%char) ds ->
  forall k, filter (fun c => negb (c =? ",")%char) (commas k ds) = ds.
Proof.
  induction 1 as [|d ds D F IH]; intros k; [reflexivity|].
  assert (E : (d =? ",")%char = false) by now apply Ascii.eqb_neq.
  cbn [commas]. destruct (k =? 3)%nat; cbn [filter]; rewrite ?E;
    cbn [Ascii.eqb Bool.eqb negb]; now rewrite IH.
Qed.

Lemma commas_last (ds : list ascii) :
  Forall (fun c => c <> ","%char) ds ->
  forall k, last (commas k ds) "0"%char <> ","%char.
Proof.
  induction 1 as [|d ds D F IH]; intros k; [discriminate|].
  cbn [commas]. destruct (k =? 3)%nat.
  - destruct ds as [|d' ds']; [exact D|].
    specialize (IH 1%nat). cbn [commas] in *. cbn [Nat.eqb] in *. exact IH.
  - destruct ds as [|d' ds']; [exact D|].
    specialize (IH (S k)). cbn [commas] in *.
    destruct (S k =? 3)%nat; exact IH.
Qed.

Lemma string_of_uint_digits (u : Decimal.uint) :
  Forall (fun c => c <> ","%char)
         (list_ascii_of_string (DecimalString.NilEmpty.string_of_uint u)).
Proof.
  induction u; cbn; constructor; auto; discriminate.
Qed.

Lemma digits_of_digits (n : Z) : Forall (fun c => c <> ","%char) (digits_of n).
Proof.
  unfold digits_of, DecimalString.NilZero.string_of_uint.
  destruct (N.to_uint (Z.to_N n)) eqn:E;
    try (rewrite <- E; apply string_of_uint_digits).
  repeat constructor. discriminate.
Qed.

(** X17.  A finite amount is shown as the integer nearest to it, a tie
    going to the even neighbour; an amount that is an integer already is
    shown exactly. *)
Theorem round_half_even_nearest (m : positive) (e : Z) :
  ((0 <= e)%Z -> round_half_even m e = (Zpos m * 2 ^ e)%Z)
  /\ ((e < 0)%Z ->
      let n := round_half_even m e in
      let d := (2 ^ (- e))%Z in
      (2 * Z.abs (n * d - Zpos m) <= d)%Z
      /\ ((2 * Z.abs (n * d - Zpos m) = d)%Z -> Z.even n = true)).
Proof.
  unfold round_half_even. split; intros E.
  - now rewrite (proj2 (Z.leb_le 0 e) E).
  - rewrite (proj2 (Z.leb_gt 0 e)) by lia. cbv zeta.
    set (d := (2 ^ (- e))%Z).
    assert (D : (0 < d)%Z) by (apply Z.pow_pos_nonneg; lia).
    pose proof (Z.div_mod (Zpos m) d ltac:(lia)) as Q.
    pose proof (Z.mod_pos_bound (Zpos m) d D) as R.
    set (q := (Zpos m / d)%Z) in *. set (r := (Zpos m mod d)%Z) in *.
    replace (d * q)%Z with (q * d)%Z in Q by ring.
    destruct (Z.compare_spec (2 * r) d) as [C|C|C].
    + destruct (Z.even q) eqn:Ev.
      * split; [lia|auto].
      * replace ((q + 1) * d)%Z with (q * d + d)%Z by ring.
        split; [lia|]. intros _.
        rewrite Z.even_add, Ev. reflexivity.
    + split; lia.
    + replace ((q + 1) * d)%Z with (q * d + d)%Z by ring. split; lia.
Qed.

(** X18.  The digits of a tile are grouped in threes from the right:
    counting the characters from the right, exactly every fourth one is
    a comma; the text does not begin with a comma, and without its
    commas it is the decimal numeral of the number. *)
Theorem grouped_in_threes (n : Z) :
  let text := list_ascii_of_string (grouped n) in
  filter (fun c => negb (c =? ",")%char) text = digits_of n
  /\ hd "0"%char text <> ","%char
  /\ (forall i, (i < List.length text)%nat ->
        (nth i (rev text) "0"%char = ","%char <-> (i mod 4 = 3)%nat)).
Proof.
  unfold grouped. cbv zeta. rewrite list_ascii_of_string_of_list_ascii.
  pose proof (digits_of_digits n) as F.
  assert (Fr : Forall (fun c => c <> ","%char) (rev (digits_of n))).
  { apply Forall_forall. intros c Hc. apply in_rev in Hc.
    rewrite Forall_forall in F. now apply F. }
  split; [|split].
  - rewrite <- (rev_involutive (digits_of n)) at 2.
    rewrite <- (commas_removed _ Fr 0%nat) at 2.
    generalize (commas 0 (rev (digits_of n))). intros l.
    induction l as [|c l IH]; [reflexivity|].
    cbn [rev filter]. rewrite filter_app, IH. cbn [filter].
    destruct (negb (c =? ",")%char); cbn [rev]; [reflexivity|].
    now rewrite app_nil_r.
  - pose proof (commas_last _ Fr 0%nat) as L.
    destruct (commas 0 (rev (digits_of n))) as [|c l] eqn:E using rev_ind.
    + discriminate.
    + rewrite rev_app_distr. cbn [rev app hd].
      now rewrite last_last in L.
  - intros i L. rewrite rev_involutive. rewrite length_rev in L.
    rewrite (commas_at _ Fr 0%nat i) by (auto; lia).
    now rewrite Nat.add_0_r.
Qed.
